(** * Address-book form: the [useForm] hook and the [App] submit handlers

    A shallow embedding of the form-state hook ([useForm]) and of the three
    event handlers of [App.tsx] ([handleAddressSubmit], [handlePersonSubmit]
    and the "Clear all fields" click handler), together with the properties
    of the search-and-select workflow.

    JavaScript strings are sequences of UTF-16 code units, objects are
    finite maps from property names to values, and a handler is a program
    in a small state-and-exception monad that also records, in order, every
    state setter it calls and every call it makes to the outside world. *)

From Stdlib Require Import NArith ZArith Ascii String List.
From stdpp Require Import gmap list fin_maps.

Local Open Scope N_scope.

(** ** JavaScript strings *)

Module JSString.

(** One UTF-16 code unit. *)
Definition code_unit : Type := N.

(** A string literal of the source; all of them are ASCII. *)
Definition lit (s : string) : list code_unit :=
  List.map N_of_ascii (list_ascii_of_string s).

(** ECMAScript [WhiteSpace] and [LineTerminator] code points: the ones
    [String.prototype.trim] strips. *)
Definition is_white_space (c : code_unit) : bool :=
  (c =? 9) || (c =? 10) || (c =? 11) || (c =? 12) || (c =? 13)
  || (c =? 32) || (c =? 160) || (c =? 5760)
  || ((8192 <=? c) && (c <=? 8202))
  || (c =? 8232) || (c =? 8233) || (c =? 8239) || (c =? 8287)
  || (c =? 12288) || (c =? 65279).

Fixpoint trimStart (s : list code_unit) : list code_unit :=
  match s with
  | c :: s' => if is_white_space c then trimStart s' else s
  | [] => []
  end.

Definition trimEnd (s : list code_unit) : list code_unit :=
  rev (trimStart (rev s)).

(** [s.trim()] *)
Definition trim (s : list code_unit) : list code_unit :=
  trimEnd (trimStart s).

(** [!s] for a string [s]: only the empty string is falsy. *)
Definition is_empty (s : list code_unit) : bool :=
  match s with [] => true | _ => false end.

End JSString.

Export JSString.

Abbreviation jsstring := (list code_unit).

(** ** JavaScript values held by form fields and address objects *)

Inductive JSVal : Type :=
| VUndefined
| VBool (b : bool)
| VNumber (n : Z)          (* integral numbers only: array indices *)
| VString (s : jsstring).

#[global] Instance JSVal_eq_dec : EqDecision JSVal.
Proof. solve_decision. Defined.

(** An object with primitive fields: property name to value. *)
Abbreviation JSObject := (gmap jsstring JSVal).

(** Property read [o.k]: a missing property reads as [undefined]. *)
Definition get (k : string) (o : JSObject) : JSVal :=
  default VUndefined (o !! lit k).

(** [ToBoolean] *)
Definition truthy (v : JSVal) : bool :=
  match v with
  | VUndefined => false
  | VBool b => b
  | VNumber n => negb (n =? 0)%Z
  | VString s => negb (is_empty s)
  end.

(** [a === b] on the values above. *)
Definition strict_eq (a b : JSVal) : bool := bool_decide (a = b).

(** ** The form-state hook, [useForm] *)

Module UseForm.

(** The fields of [e.target] that [handleChange] destructures. *)
Record ChangeTarget : Type := {
  name : jsstring;
  type : jsstring;
  value : jsstring;
  checked : bool
}.

(** [useState(initialValues)]: the state of the first render. *)
Definition init (initialValues : JSObject) : JSObject := initialValues.

(** [setValues(prev => ({ ...prev, [name]: type === 'checkbox' ? checked : value }))] *)
Definition handleChange (e : ChangeTarget) (prev : JSObject) : JSObject :=
  <[ name e := if bool_decide (type e = lit "checkbox")
               then VBool (checked e)
               else VString (value e) ]> prev.

(** [setValues(initialValues)] *)
Definition reset (initialValues : JSObject) (prev : JSObject) : JSObject :=
  initialValues.

(** What a user of the hook can do with it. *)
Inductive Action : Type :=
| Change (e : ChangeTarget)
| Reset.

Definition step (initialValues : JSObject) (vs : JSObject) (a : Action)
  : JSObject :=
  match a with
  | Change e => handleChange e vs
  | Reset => reset initialValues vs
  end.

(** The state updates are applied in the order they were queued. *)
Definition run (initialValues : JSObject) (acts : list Action)
  (vs : JSObject) : JSObject :=
  fold_left (step initialValues) acts vs.

End UseForm.

(** ** The world of the [App] component *)

(** What can be thrown while a handler runs. *)
Inductive JSError : Type :=
| TypeError                 (* a method call on a value that lacks it *)
| URIError                  (* [encodeURIComponent] on a lone surrogate *)
| SyntaxError               (* [res.json()] on a body that is not JSON *)
| NetworkError              (* [fetch] rejected *)
| ApiError (status : N).    (* [new Error(`API error: ${res.status}`)] *)

(** The value [res.json()] resolves to. The source casts it, unchecked, to
    [{ status: string; details: RawAddressModel[] }]; any value on which
    [json.details.map] is not callable is [IllShaped]. *)
Inductive ParsedBody (Raw : Type) : Type :=
| Body (status : jsstring) (details : list Raw)
| IllShaped.
Arguments Body {Raw} status details.
Arguments IllShaped {Raw}.

Inductive JsonOutcome (Raw : Type) : Type :=
| JsonRejected (e : JSError)
| JsonResolved (b : ParsedBody Raw).
Arguments JsonRejected {Raw} e.
Arguments JsonResolved {Raw} b.

Record Response (Raw : Type) : Type := {
  status : N;
  json : JsonOutcome Raw
}.
Arguments status {Raw} r.
Arguments json {Raw} r.

(** [res.ok]: the status is in the range 200 to 299. *)
Definition ok {Raw : Type} (res : Response Raw) : bool :=
  (200 <=? status res) && (status res <=? 299).

Inductive FetchOutcome (Raw : Type) : Type :=
| FetchRejected (e : JSError)
| FetchResolved (res : Response Raw).
Arguments FetchRejected {Raw} e.
Arguments FetchResolved {Raw} res.

(** The React state of [App] and the address-book store behind
    [useAddressBook]. *)
Record AppState : Type := {
  values : JSObject;                (* useForm *)
  error : option jsstring;          (* undefined | string *)
  addresses : list JSObject;        (* the result list *)
  addressBook : list JSObject       (* the store *)
}.

(** Every setter call and every call to the outside, as it happens. *)
Inductive Op : Type :=
| SetValues (v : JSObject)
| SetAddresses (l : list JSObject)
| SetError (e : option jsstring)
| FetchCall (url : jsstring)
| ConsoleError (e : JSError)
| AddAddress (entry : JSObject).

Record World : Type := {
  state : AppState;
  trace : list Op
}.

(** ** The handler monad: state, trace and exceptions *)

Inductive Completion (A : Type) : Type :=
| Normal (a : A)
| Throw (e : JSError).
Arguments Normal {A} a.
Arguments Throw {A} e.

Definition M (A : Type) : Type := World -> Completion A * World.

Definition ret {A : Type} (a : A) : M A := fun w => (Normal a, w).

Definition bind {A B : Type} (m : M A) (k : A -> M B) : M B :=
  fun w =>
    match m w with
    | (Normal a, w') => k a w'
    | (Throw e, w') => (Throw e, w')
    end.

Definition throw {A : Type} (e : JSError) : M A := fun w => (Throw e, w).

(** [try { body } catch (err) { handler }] *)
Definition try_catch (body : M unit) (handler : JSError -> M unit) : M unit :=
  fun w =>
    match body w with
    | (Normal a, w') => (Normal a, w')
    | (Throw e, w') => handler e w'
    end.

Definition lift {A : Type} (c : Completion A) : M A := fun w => (c, w).

Declare Scope handler_scope.
Delimit Scope handler_scope with handler.
Notation "x <- m ;; k" := (bind m (fun x => k))
  (at level 100, m at next level, right associativity) : handler_scope.
Notation "m ;; k" := (bind m (fun _ => k))
  (at level 100, right associativity) : handler_scope.
Local Open Scope handler_scope.

Definition emit (o : Op) (w : World) : World :=
  {| state := state w; trace := trace w ++ [o] |}.

Definition update (f : AppState -> AppState) (o : Op) : M unit :=
  fun w => (Normal tt, emit o {| state := f (state w); trace := trace w |}).

Definition setValues (v : JSObject) : M unit :=
  update (fun s => {| values := v; error := error s;
                      addresses := addresses s;
                      addressBook := addressBook s |}) (SetValues v).

Definition setAddresses (l : list JSObject) : M unit :=
  update (fun s => {| values := values s; error := error s;
                      addresses := l;
                      addressBook := addressBook s |}) (SetAddresses l).

Definition setError (e : option jsstring) : M unit :=
  update (fun s => {| values := values s; error := e;
                      addresses := addresses s;
                      addressBook := addressBook s |}) (SetError e).

Definition console_error (e : JSError) : M unit :=
  fun w => (Normal tt, emit (ConsoleError e) w).

(** [v.trim()]: only strings have the method. *)
Definition js_trim (v : JSVal) : M jsstring :=
  match v with
  | VString s => ret (trim s)
  | _ => throw TypeError
  end.

(** [!v.trim()] *)
Definition blank (v : JSVal) : M bool :=
  s <- js_trim v ;; ret (is_empty s).

(** [a || b], the right operand evaluated only when the left is false. *)
Definition or_else (a b : M bool) : M bool :=
  x <- a ;; if x then ret true else b.

(** [arr.map(cb)]: the callback gets the element, its index and the array. *)
Fixpoint map_from {A B : Type} (cb : A -> nat -> list A -> B)
  (arr : list A) (i : nat) (l : list A) : list B :=
  match l with
  | [] => []
  | x :: l' => cb x i arr :: map_from cb arr (S i) l'
  end.

Definition Array_map {A B : Type} (cb : A -> nat -> list A -> B)
  (arr : list A) : list B :=
  map_from cb arr 0%nat arr.

(** [arr.find(p)]: the first element that satisfies [p], if any. *)
Fixpoint Array_find {A : Type} (p : A -> bool) (arr : list A) : option A :=
  match arr with
  | [] => None
  | x :: arr' => if p x then Some x else Array_find p arr'
  end.

(** ** The [App] component *)

(** The object literal [App] passes to [useForm]. *)
Definition initialValues : JSObject :=
  <[ lit "postCode" := VString [] ]>
  (<[ lit "houseNumber" := VString [] ]>
  (<[ lit "firstName" := VString [] ]>
  (<[ lit "lastName" := VString [] ]>
  (<[ lit "selectedAddress" := VString [] ]> ∅)))).

Definition MSG_MANDATORY_SEARCH : jsstring :=
  lit "Post code and house number are mandatory!".
Definition MSG_FETCH_FAILED : jsstring :=
  lit "Failed to fetch addresses. Please try again.".
Definition MSG_MANDATORY_NAMES : jsstring :=
  lit "First name and last name fields mandatory!".
Definition MSG_NO_ADDRESS : jsstring :=
  lit "No address selected, try to select an address or find one if you haven't".
Definition MSG_NOT_FOUND : jsstring :=
  lit "Selected address not found".

(** The template literal
    [`${process.env.NEXT_PUBLIC_URL}/api/getAddresses?postcode=${pc}&streetnumber=${hn}`],
    [pc] and [hn] already encoded. *)
Definition getAddresses_url (base pc hn : jsstring) : jsstring :=
  base ++ lit "/api/getAddresses?postcode=" ++ pc
       ++ lit "&streetnumber=" ++ hn.

Section App.

(** The environment of the component: what it imports and calls but does
    not define. *)
Variable NEXT_PUBLIC_URL : jsstring.
Variable encodeURIComponent : JSVal -> Completion jsstring.
Variable RawAddressModel : Type.
Variable fetch : jsstring -> FetchOutcome RawAddressModel.

(** [transformAddress] of [core/models/address], as [Array.prototype.map]
    calls it: with the element, its index and the whole array. *)
Variable transformAddress :
  RawAddressModel -> nat -> list RawAddressModel -> JSObject.

(** The [addAddress] action of [useAddressBook], as a reducer on the store. *)
Variable addAddress : list JSObject -> JSObject -> list JSObject.

Definition dispatch_addAddress (entry : JSObject) : M unit :=
  update (fun s => {| values := values s; error := error s;
                      addresses := addresses s;
                      addressBook := addAddress (addressBook s) entry |})
         (AddAddress entry).

(** [await fetch(url)]. The handler is run to its end in one go: no other
    event is taken while the request is in flight, and the network answers
    a URL the same way each time it is asked. *)
Definition await_fetch (url : jsstring) : M (Response RawAddressModel) :=
  fun w =>
    match fetch url with
    | FetchRejected e => (Throw e, emit (FetchCall url) w)
    | FetchResolved res => (Normal res, emit (FetchCall url) w)
    end.

(** [await res.json()] *)
Definition await_json (res : Response RawAddressModel)
  : M (ParsedBody RawAddressModel) :=
  match json res with
  | JsonRejected e => throw e
  | JsonResolved b => ret b
  end.

(** [json.details.map(transformAddress)] *)
Definition map_details (b : ParsedBody RawAddressModel) : M (list JSObject) :=
  match b with
  | Body _ details => ret (Array_map transformAddress details)
  | IllShaped => throw TypeError
  end.

(** A search submission that passes the validation: both fields hold text
    that is not blank, and the two encode to [e1] and [e2]. *)
Definition submitted (s : AppState) (pc hn e1 e2 : jsstring) : Prop :=
  get "postCode" (values s) = VString pc
  /\ get "houseNumber" (values s) = VString hn
  /\ trim pc <> [] /\ trim hn <> []
  /\ encodeURIComponent (VString pc) = Normal e1
  /\ encodeURIComponent (VString hn) = Normal e2.

(** The handlers close over the values of the render they were created in:
    [snap] is the state of that render, the monad carries the live state.
    [e.preventDefault()] has no effect on either and is left out;
    [transformAddress] is taken to return on every record it is given. *)
Definition handleAddressSubmit (snap : AppState) : M unit :=
  let postCode := get "postCode" (values snap) in
  let houseNumber := get "houseNumber" (values snap) in
  setAddresses [] ;;
  setError None ;;
  invalid <- or_else (blank postCode) (blank houseNumber) ;;
  if (invalid : bool) then
    setError (Some MSG_MANDATORY_SEARCH)
  else
    try_catch
      (pc <- lift (encodeURIComponent postCode) ;;
       hn <- lift (encodeURIComponent houseNumber) ;;
       res <- await_fetch (getAddresses_url NEXT_PUBLIC_URL pc hn) ;;
       if negb (ok res) then throw (ApiError (status res))
       else
         body <- await_json res ;;
         transformed <- map_details body ;;
         setAddresses transformed)
      (fun err =>
         console_error err ;;
         setError (Some MSG_FETCH_FAILED)).

Definition handlePersonSubmit (snap : AppState) : M unit :=
  let firstName := get "firstName" (values snap) in
  let lastName := get "lastName" (values snap) in
  let selectedAddress := get "selectedAddress" (values snap) in
  invalid <- or_else (blank firstName) (blank lastName) ;;
  if (invalid : bool) then
    setError (Some MSG_MANDATORY_NAMES)
  else if negb (truthy selectedAddress)
          || (length (addresses snap) =? 0)%nat then
    setError (Some MSG_NO_ADDRESS)
  else
    match Array_find (fun address => strict_eq (get "id" address) selectedAddress)
                     (addresses snap) with
    | None => setError (Some MSG_NOT_FOUND)
    | Some foundAddress =>
        dispatch_addAddress
          (<[ lit "lastName" := lastName ]>
           (<[ lit "firstName" := firstName ]> foundAddress))
    end.

(** The [onClick] of the "Clear all fields" button. *)
Definition handleClearAll (snap : AppState) : M unit :=
  setValues (UseForm.reset initialValues (values snap)) ;;
  setAddresses [] ;;
  setError None.

(** [onChange={handleChange}] of the inputs and radios. *)
Definition handleChange (e : UseForm.ChangeTarget) (snap : AppState) : M unit :=
  fun w => setValues (UseForm.handleChange e (values (state w))) w.

(** One user event: the handler of the render of state [s] runs to
    completion, starting from [s] with nothing recorded yet. *)
Definition fire (h : AppState -> M unit) (s : AppState)
  : Completion unit * World :=
  h s {| state := s; trace := [] |}.

End App.

Arguments handleAddressSubmit NEXT_PUBLIC_URL encodeURIComponent
  {RawAddressModel} fetch transformAddress snap.

(** The state the event leaves behind, what it called on the way, and how
    the handler completed. *)
Definition after (h : AppState -> M unit) (s : AppState) : AppState :=
  state (snd (fire h s)).

Definition calls (h : AppState -> M unit) (s : AppState) : list Op :=
  trace (snd (fire h s)).

Definition completion (h : AppState -> M unit) (s : AppState)
  : Completion unit :=
  fst (fire h s).

(** The URLs requested, in order. *)
Definition network_calls (ops : list Op) : list jsstring :=
  omap (fun o => match o with FetchCall url => Some url | _ => None end) ops.

(** What went to [console.error], in order. *)
Definition diagnostics (ops : list Op) : list JSError :=
  omap (fun o => match o with ConsoleError e => Some e | _ => None end) ops.

(** What an event gives when all its handler does is set the error. *)
Definition failed_with (msg : jsstring) (s : AppState)
  : Completion unit * World :=
  (Normal tt,
   {| state := {| values := values s; error := Some msg;
                  addresses := addresses s;
                  addressBook := addressBook s |};
      trace := [SetError (Some msg)] |}).

(** The state [App] starts in. *)
Definition initialState : AppState :=
  {| values := UseForm.init initialValues;
     error := None;
     addresses := [];
     addressBook := [] |}.

(** The fields of the form, all of them text inputs or radios: every one
    of them holds a string. *)
Definition form_fields : list string :=
  ["postCode"; "houseNumber"; "firstName"; "lastName"; "selectedAddress"]%string.

Definition text_form (s : AppState) : Prop :=
  Forall (fun k => exists v : jsstring, get k (values s) = VString v)
         form_fields.

(** ** The parts of the repository that [App] imports *)

Module Spec.

(** Modelled from the spec: the raw record type of [core/models/address],
    which is not among the sources. The spec gives it "at minimum street,
    city, postcode fields and an identifier". *)
Record RawAddressRecord : Type := {
  raw_id : jsstring;
  raw_street : jsstring;
  raw_city : jsstring;
  raw_postcode : jsstring
}.

(** Modelled from the spec: [transformAddress] of [core/models/address],
    which is not among the sources. "Input is one RawAddressRecord and a
    house-number string; output is one Address with the house number
    injected alongside the fields copied/mapped from the raw record." *)
Definition transformAddress (raw : RawAddressRecord) (houseNumber : JSVal)
  : JSObject :=
  <[ lit "id" := VString (raw_id raw) ]>
  (<[ lit "street" := VString (raw_street raw) ]>
  (<[ lit "houseNumber" := houseNumber ]>
  (<[ lit "city" := VString (raw_city raw) ]>
  (<[ lit "postcode" := VString (raw_postcode raw) ]> ∅)))).

(** Modelled from the spec: the [addAddress] action of [useAddressBook],
    which is not among the sources. "append(entry) — adds one
    AddressBookEntry to the end of the ordered sequence. No deduplication,
    no capacity limit." *)
Definition addAddress (book : list JSObject) (entry : JSObject)
  : list JSObject :=
  book ++ [entry].

End Spec.

(** A function of two parameters handed to [Array.prototype.map] receives
    the index, a number, as its second argument and drops the third. *)
Definition as_map_callback {A B : Type} (f : A -> JSVal -> B)
  : A -> nat -> list A -> B :=
  fun x i _ => f x (VNumber (Z.of_nat i)).

(** ** Built-ins of the platform *)

Module Builtins.

(** The characters [encodeURIComponent] leaves alone:
    letters, digits and [- _ . ! ~ * ' ( )]. *)
Definition is_unreserved (c : code_unit) : bool :=
  ((65 <=? c) && (c <=? 90)) || ((97 <=? c) && (c <=? 122))
  || ((48 <=? c) && (c <=? 57))
  || (c =? 45) || (c =? 95) || (c =? 46) || (c =? 33) || (c =? 126)
  || (c =? 42) || (c =? 39) || (c =? 40) || (c =? 41).

Definition hex_digit (d : N) : code_unit :=
  if d <? 10 then 48 + d else 55 + d.

(** [%XX] for one byte. *)
Definition percent (b : N) : jsstring :=
  [37; hex_digit (b / 16); hex_digit (b mod 16)].

Definition utf8 (cp : N) : list N :=
  if cp <? 128 then [cp]
  else if cp <? 2048 then [192 + cp / 64; 128 + cp mod 64]
  else if cp <? 65536 then
    [224 + cp / 4096; 128 + (cp / 64) mod 64; 128 + cp mod 64]
  else
    [240 + cp / 262144; 128 + (cp / 4096) mod 64;
     128 + (cp / 64) mod 64; 128 + cp mod 64].

Definition is_lead (c : code_unit) : bool := (55296 <=? c) && (c <=? 56319).
Definition is_trail (c : code_unit) : bool := (56320 <=? c) && (c <=? 57343).

Definition escaped (cp : N) (rest : Completion jsstring) : Completion jsstring :=
  match rest with
  | Normal r => Normal (concat (List.map percent (utf8 cp)) ++ r)
  | Throw e => Throw e
  end.

Fixpoint encode (s : jsstring) : Completion jsstring :=
  match s with
  | [] => Normal []
  | c :: s' =>
      if is_unreserved c then
        match encode s' with
        | Normal r => Normal (c :: r)
        | Throw e => Throw e
        end
      else if is_trail c then Throw URIError
      else if is_lead c then
        match s' with
        | d :: s'' =>
            if is_trail d
            then escaped ((c - 55296) * 1024 + (d - 56320) + 65536) (encode s'')
            else Throw URIError
        | [] => Throw URIError
        end
      else escaped c (encode s')
  end.

(** Decimal digits of a natural number, most significant first; [fuel]
    bounds the number of digits. *)
Fixpoint digits (fuel : nat) (n : N) (acc : jsstring) : jsstring :=
  match fuel with
  | O => acc
  | S fuel' =>
      if n <? 10 then (48 + n) :: acc
      else digits fuel' (n / 10) ((48 + n mod 10) :: acc)
  end.

(** [ToString] on the values above; numbers are integral and below 10^21,
    where the result is the plain decimal numeral. *)
Definition ToString (v : JSVal) : jsstring :=
  match v with
  | VUndefined => lit "undefined"
  | VBool true => lit "true"
  | VBool false => lit "false"
  | VNumber n =>
      (if (n <? 0)%Z then [45] else []) ++ digits 22 (Z.abs_N n) []
  | VString s => s
  end.

Definition encodeURIComponent (v : JSVal) : Completion jsstring :=
  encode (ToString v).

End Builtins.

(** ** The end-to-end scenario of the spec

    Postcode "1345", house number "350"; the API answers
    [{status:"ok", details:[{id:"1", street:"Main", city:"X",
    postcode:"1345"}]}]; the user selects the result and submits first name
    "A", last name "B". *)

Module Scenario.

Definition base_url : jsstring := lit "http://localhost:3000".

Definition record1 : Spec.RawAddressRecord :=
  {| Spec.raw_id := lit "1"; Spec.raw_street := lit "Main";
     Spec.raw_city := lit "X"; Spec.raw_postcode := lit "1345" |}.

Definition record2 : Spec.RawAddressRecord :=
  {| Spec.raw_id := lit "2"; Spec.raw_street := lit "Side";
     Spec.raw_city := lit "X"; Spec.raw_postcode := lit "1345" |}.

Definition url_of (streetnumber : string) : jsstring :=
  getAddresses_url base_url (lit "1345") (lit streetnumber).

(** The mock API: the record of the scenario for house number 350,
    another record for house number 8, no record for house number 7, and
    a 404 for every other request. *)
Definition mock_fetch (url : jsstring) : FetchOutcome Spec.RawAddressRecord :=
  if bool_decide (url = url_of "350") then
    FetchResolved {| status := 200;
                     json := JsonResolved (Body (lit "ok") [record1]) |}
  else if bool_decide (url = url_of "8") then
    FetchResolved {| status := 200;
                     json := JsonResolved (Body (lit "ok") [record2]) |}
  else if bool_decide (url = url_of "7") then
    FetchResolved {| status := 200;
                     json := JsonResolved (Body (lit "ok") []) |}
  else
    FetchResolved {| status := 404; json := JsonRejected SyntaxError |}.

Definition search : AppState -> M unit :=
  handleAddressSubmit base_url Builtins.encodeURIComponent mock_fetch
    (as_map_callback Spec.transformAddress).

Definition person : AppState -> M unit :=
  handlePersonSubmit Spec.addAddress.

Definition type_in (field text : string) (s : AppState) : AppState :=
  after (handleChange {| UseForm.name := lit field; UseForm.type := lit "text";
                         UseForm.value := lit text; UseForm.checked := false |}) s.

Definition pick (id : string) (s : AppState) : AppState :=
  after (handleChange {| UseForm.name := lit "selectedAddress";
                         UseForm.type := lit "radio";
                         UseForm.value := lit id; UseForm.checked := true |}) s.

(** The form filled in for the search of the scenario. *)
Definition filled : AppState :=
  type_in "houseNumber" "350" (type_in "postCode" "1345" initialState).

(** ... searched, the result selected, and the names typed. *)
Definition ready : AppState :=
  type_in "lastName" "B" (type_in "firstName" "A"
    (pick "1" (after search filled))).

(** The user blanks the postcode while the result is still listed. *)
Definition blanked : AppState :=
  type_in "postCode" "  " (after search filled).

(** The user changes the house number after everything else is in place:
    to one the API does not know, to one without addresses, and to one
    with another address. *)
Definition unknown_number : AppState := type_in "houseNumber" "9" ready.
Definition empty_number : AppState := type_in "houseNumber" "7" ready.
Definition other_number : AppState := type_in "houseNumber" "8" ready.

(** ... and searches again. *)
Definition emptied : AppState := after search empty_number.
Definition stale : AppState := after search other_number.

(** The result selected but no name typed; names typed but no result
    selected. *)
Definition unnamed : AppState := pick "1" (after search filled).
Definition unselected : AppState :=
  type_in "lastName" "B" (type_in "firstName" "A" (after search filled)).

(** A postcode that is one lead surrogate, which cannot be encoded. *)
Definition surrogate_postcode : AppState :=
  after (handleChange {| UseForm.name := lit "postCode";
                         UseForm.type := lit "text";
                         UseForm.value := [55357];
                         UseForm.checked := false |}) filled.

(** A checkbox bound to the postcode field, ticked. *)
Definition checkbox_postcode : AppState :=
  after (handleChange {| UseForm.name := lit "postCode";
                         UseForm.type := lit "checkbox";
                         UseForm.value := lit "on";
                         UseForm.checked := true |}) ready.

(** An API that answers every request with a body without [details]. *)
Definition bare_api (url : jsstring) : FetchOutcome Spec.RawAddressRecord :=
  FetchResolved {| status := 200; json := JsonResolved IllShaped |}.

Definition bare_search : AppState -> M unit :=
  handleAddressSubmit base_url Builtins.encodeURIComponent bare_api
    (as_map_callback Spec.transformAddress).

(** Two results with the identifier "1", told apart by their house
    numbers. *)
Definition twins : AppState :=
  {| values := values ready; error := None;
     addresses := [Spec.transformAddress record1 (VNumber 0);
                   Spec.transformAddress record1 (VNumber 1)];
     addressBook := [] |}.

Definition typing (field text : string) : UseForm.ChangeTarget :=
  {| UseForm.name := lit field; UseForm.type := lit "text";
     UseForm.value := lit text; UseForm.checked := false |}.

End Scenario.

(** ** What the hook stores, field by field *)

(** The value [handleChange] stores for an event:
    [type === 'checkbox' ? checked : value]. *)
Definition stored (e : UseForm.ChangeTarget) : JSVal :=
  if bool_decide (UseForm.type e = lit "checkbox")
  then VBool (UseForm.checked e)
  else VString (UseForm.value e).

(** The value of the last event of [es] that names the field [k]. *)
Fixpoint last_change (k : jsstring) (es : list UseForm.ChangeTarget)
  : option JSVal :=
  match es with
  | [] => None
  | e :: es' =>
      match last_change k es' with
      | Some v => Some v
      | None => if bool_decide (UseForm.name e = k) then Some (stored e)
                else None
      end
  end.

(** ** The error banner, [ErrorMessage], and what [App] renders *)

(** The [div] the banner returns. *)
Record Div : Type := {
  role : jsstring;
  className : jsstring;
  children : jsstring
}.

(** The props [App] gives to one [Radio], and its child [Address]. *)
Record RadioProps : Type := {
  radio_key : JSVal;
  radio_name : jsstring;
  radio_id : JSVal;
  radio_value : JSVal;
  radio_address : JSObject
}.

(** The [value] props of the two inputs of the person form. *)
Record PersonForm : Type := {
  firstName_value : JSVal;
  lastName_value : JSVal
}.

(** The parts of the tree [App] returns that depend on its state: the
    values of the search inputs, the radios, the person form when it is
    there, and the banner when it is there. Headings, buttons and the
    address-book section are the same in every render. *)
Record Screen : Type := {
  postCode_value : JSVal;
  houseNumber_value : JSVal;
  radios : list RadioProps;
  personForm : option PersonForm;
  errorMessage : option Div
}.

Section Render.

(** [styles.error] of [ErrorMessage.module.css]. *)
Variable styles_error : jsstring.

(** [if (!message) return null; return <div role="alert" ...>{message}</div>] *)
Definition ErrorMessage (message : jsstring) : option Div :=
  if is_empty message then None
  else Some {| role := lit "alert"; className := styles_error;
               children := message |}.

Definition render (s : AppState) : Screen :=
  let selectedAddress := get "selectedAddress" (values s) in
  {| postCode_value := get "postCode" (values s);
     houseNumber_value := get "houseNumber" (values s);
     (* addresses.length > 0 && addresses.map(...) *)
     radios :=
       if (0 <? length (addresses s))%nat then
         List.map (fun address =>
                     {| radio_key := get "id" address;
                        radio_name := lit "selectedAddress";
                        radio_id := get "id" address;
                        radio_value := get "id" address;
                        radio_address := address |})
                  (addresses s)
       else [];
     (* selectedAddress && (<form ...>) *)
     personForm :=
       if truthy selectedAddress then
         Some {| firstName_value := get "firstName" (values s);
                 lastName_value := get "lastName" (values s) |}
       else None;
     (* error && <ErrorMessage message={error} /> *)
     errorMessage :=
       match error s with
       | Some message =>
           if is_empty message then None else ErrorMessage message
       | None => None
       end |}.

End Render.

(** ** The events of the page *)

Inductive Event : Type :=
| Typed (e : UseForm.ChangeTarget)    (* onChange of an input or a radio *)
| Find                                (* submit of the search form *)
| AddToBook                           (* submit of the person form *)
| ClearAllFields.                     (* click on "Clear all fields" *)

Section Events.

Variable NEXT_PUBLIC_URL : jsstring.
Variable encodeURIComponent : JSVal -> Completion jsstring.
Variable RawAddressModel : Type.
Variable fetch : jsstring -> FetchOutcome RawAddressModel.
Variable transformAddress :
  RawAddressModel -> nat -> list RawAddressModel -> JSObject.
Variable addAddress : list JSObject -> JSObject -> list JSObject.

Definition handler (ev : Event) : AppState -> M unit :=
  match ev with
  | Typed e => handleChange e
  | Find => handleAddressSubmit NEXT_PUBLIC_URL encodeURIComponent fetch
              transformAddress
  | AddToBook => handlePersonSubmit addAddress
  | ClearAllFields => handleClearAll
  end.

Definition dispatch (s : AppState) (ev : Event) : AppState :=
  after (handler ev) s.

(** The events are handled one after the other. *)
Definition replay (evs : list Event) (s : AppState) : AppState :=
  fold_left dispatch evs s.

End Events.

Arguments handler NEXT_PUBLIC_URL encodeURIComponent {RawAddressModel}
  fetch transformAddress addAddress ev.
Arguments dispatch NEXT_PUBLIC_URL encodeURIComponent {RawAddressModel}
  fetch transformAddress addAddress s ev.
Arguments replay NEXT_PUBLIC_URL encodeURIComponent {RawAddressModel}
  fetch transformAddress addAddress evs s.

(** No control of the page is a checkbox. *)
Definition text_event (ev : Event) : Prop :=
  match ev with
  | Typed e => UseForm.type e <> lit "checkbox"
  | _ => True
  end.

(** The messages the handlers can set. *)
Definition messages : list jsstring :=
  [MSG_MANDATORY_SEARCH; MSG_FETCH_FAILED; MSG_MANDATORY_NAMES;
   MSG_NO_ADDRESS; MSG_NOT_FOUND].

(** The entry [{ ...foundAddress, firstName, lastName }]. *)
Definition entry_of (foundAddress : JSObject) (firstName lastName : JSVal)
  : JSObject :=
  <[ lit "lastName" := lastName ]>
  (<[ lit "firstName" := firstName ]> foundAddress).

(** What a person submission gives when it goes through: one dispatch of
    [entry], and nothing else. *)
Definition added (addAddress : list JSObject -> JSObject -> list JSObject)
  (entry : JSObject) (s : AppState) : Completion unit * World :=
  (Normal tt,
   {| state := {| values := values s; error := error s;
                  addresses := addresses s;
                  addressBook := addAddress (addressBook s) entry |};
      trace := [AddAddress entry] |}).

(** ** The outcomes of a fetch, in the words of the spec *)

(** The fetch fails: the request was rejected, the response has a status
    outside 200..299, or its body is not JSON. The second index is the
    error the [catch] block receives. *)
Inductive fetch_fails {Raw : Type} : FetchOutcome Raw -> JSError -> Prop :=
| network_error (e : JSError) :
    fetch_fails (FetchRejected e) e
| bad_status (res : Response Raw) :
    status res < 200 \/ 299 < status res ->
    fetch_fails (FetchResolved res) (ApiError (status res))
| malformed_json (res : Response Raw) (e : JSError) :
    200 <= status res <= 299 ->
    json res = JsonRejected e ->
    fetch_fails (FetchResolved res) e.

(** The fetch succeeds with a body whose [details] array is [details]. *)
Inductive fetch_succeeds {Raw : Type} : FetchOutcome Raw -> list Raw -> Prop :=
| success (res : Response Raw) (st : jsstring) (details : list Raw) :
    200 <= status res <= 299 ->
    json res = JsonResolved (Body st details) ->
    fetch_succeeds (FetchResolved res) details.

(** * Properties *)

(** ** Trimming *)

Lemma trimStart_nil (s : jsstring) :
  trimStart s = [] <-> forallb is_white_space s = true.
Proof.
  induction s as [|c s IH]; simpl; [tauto|].
  destruct (is_white_space c); simpl; [exact IH|].
  split; discriminate.
Qed.

Lemma trimStart_head (s : jsstring) (c : code_unit) (t : jsstring) :
  trimStart s = c :: t -> is_white_space c = false.
Proof.
  induction s as [|d s IH]; simpl; [discriminate|].
  destruct (is_white_space d) eqn:Hd; [exact IH|].
  intros [= -> _]. exact Hd.
Qed.

Lemma forallb_rev {A : Type} (p : A -> bool) (l : list A) :
  forallb p (rev l) = forallb p l.
Proof.
  induction l as [|x l IH]; simpl; [reflexivity|].
  rewrite forallb_app, IH. simpl. rewrite andb_true_r. apply andb_comm.
Qed.

(** A string is empty after trimming exactly when it is empty or consists
    of white space only. *)
Lemma trim_nil (s : jsstring) :
  trim s = [] <-> forallb is_white_space s = true.
Proof.
  unfold trim, trimEnd. split.
  - intros H.
    assert (Hr : trimStart (rev (trimStart s)) = []).
    { rewrite <- (rev_involutive (trimStart (rev (trimStart s)))), H.
      reflexivity. }
    apply trimStart_nil in Hr. rewrite forallb_rev in Hr.
    destruct (trimStart s) as [|c t] eqn:Hs; [now apply trimStart_nil|].
    apply trimStart_head in Hs. simpl in Hr. rewrite Hs in Hr. discriminate.
  - intros H. apply trimStart_nil in H. rewrite H. reflexivity.
Qed.

Lemma is_empty_true (s : jsstring) : is_empty s = true <-> s = [].
Proof. destruct s; simpl; split; congruence. Qed.

Lemma is_empty_false (s : jsstring) : is_empty s = false <-> s <> [].
Proof. destruct s; simpl; split; congruence. Qed.

(** ** The hook *)

Module UseFormProps.
Import UseForm.

Lemma run_app (V : JSObject) (a1 a2 : list Action) (vs : JSObject) :
  run V (a1 ++ a2) vs = run V a2 (run V a1 vs).
Proof. unfold run. apply fold_left_app. Qed.

(** A reset at the end of any history of changes and resets gives back
    the initial values. *)
Lemma run_reset_last (V : JSObject) (acts : list Action) (vs : JSObject) :
  run V (acts ++ [Reset]) vs = V.
Proof. rewrite run_app. reflexivity. Qed.

(** C6. For every initial mapping [V] and every finite sequence of change
    operations applied to the state the hook starts in, calling [reset]
    afterwards restores the mapping to exactly [V]. *)
Theorem reset_restores_initial (V : JSObject) (es : list ChangeTarget) :
  reset V (run V (List.map Change es) (init V)) = V
  /\ run V (List.map Change es ++ [Reset]) (init V) = V.
Proof.
  split; [reflexivity|]. apply run_reset_last.
Qed.

(** C7. A change replaces the entry of the field named by the event,
    with the boolean [checked] when the control is a checkbox and with the
    string [value] otherwise, and leaves every other entry as it was. *)
Theorem handleChange_frame (e : ChangeTarget) (vs : JSObject) :
  handleChange e vs !! name e
    = Some (if bool_decide (type e = lit "checkbox")
            then VBool (checked e) else VString (value e))
  /\ (forall k : jsstring, k <> name e -> handleChange e vs !! k = vs !! k)
  /\ dom (handleChange e vs) = {[ name e ]} ∪ dom vs.
Proof.
  unfold handleChange. split; [|split].
  - apply lookup_insert_eq.
  - intros k Hk. apply lookup_insert_ne. congruence.
  - apply dom_insert_L.
Qed.

End UseFormProps.

(** ** The search handler *)

Ltac run_handler :=
  cbv [after calls completion fire
       handleAddressSubmit handlePersonSubmit handleClearAll
       dispatch_addAddress await_fetch await_json map_details
       or_else blank js_trim bind ret throw lift try_catch
       setValues setAddresses setError console_error update emit
       state trace values error addresses addressBook fst snd].

(** Unfold the monad but keep the projections, for a case analysis on
    everything a handler looks at. *)
Ltac open_handler :=
  cbv [after calls completion fire
       handleAddressSubmit handlePersonSubmit handleClearAll
       dispatch_addAddress await_fetch await_json map_details
       or_else blank js_trim bind ret throw lift try_catch
       setValues setAddresses setError console_error update emit];
  simpl.

Ltac branch :=
  match goal with
  | |- context [match get ?k ?o with _ => _ end] =>
      destruct (get k o) eqn:?
  | |- context [is_empty (trim ?x)] =>
      destruct (trim x) eqn:?
  | |- context [match ?f (VString ?x) with Normal _ => _ | Throw _ => _ end] =>
      destruct (f (VString x)) eqn:?
  | |- context [match ?f (getAddresses_url ?b ?x ?y) with
                | FetchRejected _ => _ | FetchResolved _ => _ end] =>
      destruct (f (getAddresses_url b x y)) eqn:?
  | |- context [ok ?r] => destruct (ok r) eqn:?
  | |- context [match json ?r with _ => _ end] =>
      destruct (json r) as [?|[? ?|]] eqn:?
  end; simpl.

Section SearchProps.

Variable NEXT_PUBLIC_URL : jsstring.
Variable encodeURIComponent : JSVal -> Completion jsstring.
Variable RawAddressModel : Type.
Variable fetch : jsstring -> FetchOutcome RawAddressModel.
Variable transformAddress :
  RawAddressModel -> nat -> list RawAddressModel -> JSObject.

Local Abbreviation search :=
  (handleAddressSubmit NEXT_PUBLIC_URL encodeURIComponent fetch
     transformAddress).

(** The state a search leaves when it stops at the validation. *)
Lemma search_blank (s : AppState) (pc hn : jsstring) :
  get "postCode" (values s) = VString pc ->
  get "houseNumber" (values s) = VString hn ->
  trim pc = [] \/ trim hn = [] ->
  fire search s
  = (Normal tt,
     {| state := {| values := values s;
                    error := Some MSG_MANDATORY_SEARCH;
                    addresses := [];
                    addressBook := addressBook s |};
        trace := [SetAddresses []; SetError None;
                  SetError (Some MSG_MANDATORY_SEARCH)] |}).
Proof.
  intros Hpc Hhn Hblank.
  unfold fire, handleAddressSubmit. rewrite Hpc, Hhn. run_handler.
  destruct (trim pc) as [|c t] eqn:Ep; simpl; [reflexivity|].
  destruct Hblank as [? | ->]; [discriminate|]. reflexivity.
Qed.

Lemma ok_true (res : Response RawAddressModel) :
  ok res = true <-> 200 <= status res <= 299.
Proof.
  unfold ok. rewrite andb_true_iff, !N.leb_le. tauto.
Qed.

Lemma ok_false (res : Response RawAddressModel) :
  ok res = false <-> status res < 200 \/ 299 < status res.
Proof.
  unfold ok. rewrite andb_false_iff, !N.leb_gt. tauto.
Qed.

(** The state a search leaves when the fetch fails. *)
Lemma search_failed (s : AppState) (pc hn e1 e2 : jsstring) (err : JSError) :
  submitted encodeURIComponent s pc hn e1 e2 ->
  fetch_fails (fetch (getAddresses_url NEXT_PUBLIC_URL e1 e2)) err ->
  fire search s
  = (Normal tt,
     {| state := {| values := values s;
                    error := Some MSG_FETCH_FAILED;
                    addresses := [];
                    addressBook := addressBook s |};
        trace := [SetAddresses []; SetError None;
                  FetchCall (getAddresses_url NEXT_PUBLIC_URL e1 e2);
                  ConsoleError err;
                  SetError (Some MSG_FETCH_FAILED)] |}).
Proof.
  intros (Hpc & Hhn & Tp & Th & E1 & E2) Hfail.
  unfold fire, handleAddressSubmit. rewrite Hpc, Hhn. run_handler.
  apply is_empty_false in Tp, Th. rewrite Tp, Th, E1, E2.
  inversion Hfail as [e Ho | res Hs Ho | res e Hs Hj Ho]; subst; simpl.
  - reflexivity.
  - apply ok_false in Hs. rewrite Hs. reflexivity.
  - apply ok_true in Hs. rewrite Hs, Hj. reflexivity.
Qed.

(** The state a search leaves when the fetch succeeds. *)
Lemma search_succeeded (s : AppState) (pc hn e1 e2 : jsstring)
  (details : list RawAddressModel) :
  submitted encodeURIComponent s pc hn e1 e2 ->
  fetch_succeeds (fetch (getAddresses_url NEXT_PUBLIC_URL e1 e2)) details ->
  fire search s
  = (Normal tt,
     {| state := {| values := values s;
                    error := None;
                    addresses := Array_map transformAddress details;
                    addressBook := addressBook s |};
        trace := [SetAddresses []; SetError None;
                  FetchCall (getAddresses_url NEXT_PUBLIC_URL e1 e2);
                  SetAddresses (Array_map transformAddress details)] |}).
Proof.
  intros (Hpc & Hhn & Tp & Th & E1 & E2) Hok.
  unfold fire, handleAddressSubmit. rewrite Hpc, Hhn. run_handler.
  apply is_empty_false in Tp, Th. rewrite Tp, Th, E1, E2.
  inversion Hok as [res st ds Hs Hj Ho]; subst; simpl.
  apply ok_true in Hs. rewrite Hs, Hj. reflexivity.
Qed.

(** Whatever the form holds and whatever the network does, a search
    starts by emptying the result list and clearing the error. *)
Lemma search_clears_first (s : AppState) :
  exists rest : list Op,
    calls search s = SetAddresses [] :: SetError None :: rest.
Proof.
  open_handler. repeat branch; eexists; reflexivity.
Qed.

(** A search never touches the form values or the address book. *)
Lemma search_frame (s : AppState) :
  values (after search s) = values s
  /\ addressBook (after search s) = addressBook s.
Proof.
  open_handler. repeat branch; split; reflexivity.
Qed.

(** What a search leaves behind does not depend on the result list and
    the error it found. *)
Lemma search_forgets (s : AppState) (l : list JSObject) (e : option jsstring) :
  fire search {| values := values s; error := e; addresses := l;
                 addressBook := addressBook s |}
  = fire search s.
Proof.
  open_handler. repeat branch; reflexivity.
Qed.

End SearchProps.

(** ** Arrays *)

Lemma map_from_length {A B : Type} (cb : A -> nat -> list A -> B)
  (arr : list A) (l : list A) (k : nat) :
  length (map_from cb arr k l) = length l.
Proof.
  revert k. induction l as [|x l IH]; intros k; simpl; [reflexivity|].
  now rewrite IH.
Qed.

Lemma map_from_lookup {A B : Type} (cb : A -> nat -> list A -> B)
  (arr : list A) (l : list A) (k i : nat) :
  map_from cb arr k l !! i = (fun x => cb x (k + i)%nat arr) <$> (l !! i).
Proof.
  revert k i. induction l as [|x l IH]; intros k i; simpl; [reflexivity|].
  destruct i as [|i]; simpl.
  - now rewrite Nat.add_0_r.
  - rewrite IH. now rewrite Nat.add_succ_r.
Qed.

(** [arr.map(cb)] has the length of [arr], and its [i]-th element is [cb]
    applied to the [i]-th element of [arr], to [i] and to [arr]. *)
Lemma Array_map_length {A B : Type} (cb : A -> nat -> list A -> B)
  (arr : list A) :
  length (Array_map cb arr) = length arr.
Proof. apply map_from_length. Qed.

Lemma Array_map_lookup {A B : Type} (cb : A -> nat -> list A -> B)
  (arr : list A) (i : nat) :
  Array_map cb arr !! i = (fun x => cb x i arr) <$> (arr !! i).
Proof. unfold Array_map. now rewrite map_from_lookup. Qed.

Lemma Array_find_None {A : Type} (p : A -> bool) (arr : list A) :
  Array_find p arr = None <-> (forall x, x ∈ arr -> p x = false).
Proof.
  induction arr as [|y arr IH]; simpl.
  - split; [|reflexivity]. intros _ x Hx. inversion Hx.
  - destruct (p y) eqn:Hy.
    + split; [discriminate|]. intros H.
      specialize (H y (list_elem_of_here _ _)). congruence.
    + rewrite IH. split.
      * intros H x Hx. inversion Hx; subst; auto.
      * intros H x Hx. apply H. now apply list_elem_of_further.
Qed.

(** [find] returns the first element that satisfies the predicate. *)
Lemma Array_find_Some {A : Type} (p : A -> bool) (arr : list A) (x : A) :
  Array_find p arr = Some x <->
  exists pre post : list A,
    arr = pre ++ x :: post /\ p x = true
    /\ (forall y, y ∈ pre -> p y = false).
Proof.
  induction arr as [|y arr IH]; simpl.
  - split; [discriminate|]. intros (pre & post & H & _). now destruct pre.
  - destruct (p y) eqn:Hy.
    + split.
      * intros [= ->]. exists [], arr. repeat split; auto.
        intros z Hz. inversion Hz.
      * intros (pre & post & H & Hx & Hpre). destruct pre as [|z pre].
        { simpl in H. congruence. }
        simpl in H. injection H as <- _.
        specialize (Hpre y (list_elem_of_here _ _)). congruence.
    + rewrite IH. split.
      * intros (pre & post & -> & Hx & Hpre). exists (y :: pre), post.
        repeat split; auto. intros z Hz. inversion Hz; subst; auto.
      * intros (pre & post & H & Hx & Hpre). destruct pre as [|z pre].
        { simpl in H. injection H as -> _. congruence. }
        simpl in H. injection H as <- ->. exists pre, post.
        repeat split; auto. intros w Hw. apply Hpre.
        now apply list_elem_of_further.
Qed.

Lemma strict_eq_true (a b : JSVal) : strict_eq a b = true <-> a = b.
Proof. unfold strict_eq. apply bool_decide_eq_true. Qed.

Lemma strict_eq_false (a b : JSVal) : strict_eq a b = false <-> a <> b.
Proof. unfold strict_eq. apply bool_decide_eq_false. Qed.

(** ** The person handler *)

Section PersonProps.

Variable addAddress : list JSObject -> JSObject -> list JSObject.

Local Abbreviation person := (handlePersonSubmit addAddress).

Lemma person_blank (s : AppState) (fn ln : jsstring) :
  get "firstName" (values s) = VString fn ->
  get "lastName" (values s) = VString ln ->
  trim fn = [] \/ trim ln = [] ->
  fire person s = failed_with MSG_MANDATORY_NAMES s.
Proof.
  intros Hfn Hln Hblank.
  unfold fire, handlePersonSubmit, failed_with. rewrite Hfn, Hln. run_handler.
  destruct (trim fn) as [|c t] eqn:Ep; simpl; [reflexivity|].
  destruct Hblank as [? | ->]; [discriminate|]. reflexivity.
Qed.

Lemma person_no_address (s : AppState) (fn ln : jsstring) :
  get "firstName" (values s) = VString fn ->
  get "lastName" (values s) = VString ln ->
  trim fn <> [] -> trim ln <> [] ->
  truthy (get "selectedAddress" (values s)) = false \/ addresses s = [] ->
  fire person s = failed_with MSG_NO_ADDRESS s.
Proof.
  intros Hfn Hln Tf Tl Hsel.
  unfold fire, handlePersonSubmit, failed_with. rewrite Hfn, Hln.
  apply is_empty_false in Tf, Tl.
  cbv [or_else blank js_trim bind ret]. rewrite Tf, Tl.
  destruct Hsel as [H | H]; rewrite H; simpl; [reflexivity|].
  rewrite orb_true_r. cbv [setError update emit]. simpl. now rewrite H.
Qed.

Lemma person_not_found (s : AppState) (fn ln : jsstring) :
  get "firstName" (values s) = VString fn ->
  get "lastName" (values s) = VString ln ->
  trim fn <> [] -> trim ln <> [] ->
  truthy (get "selectedAddress" (values s)) = true ->
  addresses s <> [] ->
  (forall a, a ∈ addresses s ->
             get "id" a <> get "selectedAddress" (values s)) ->
  fire person s = failed_with MSG_NOT_FOUND s.
Proof.
  intros Hfn Hln Tf Tl Hsel Hne Hnone.
  unfold fire, handlePersonSubmit, failed_with. rewrite Hfn, Hln.
  apply is_empty_false in Tf, Tl.
  cbv [or_else blank js_trim bind ret]. rewrite Tf, Tl, Hsel.
  assert (Hlen : (length (addresses s) =? 0)%nat = false)
    by (destruct (addresses s); [congruence|reflexivity]).
  assert (Hfind : Array_find
            (fun address => strict_eq (get "id" address)
                              (get "selectedAddress" (values s)))
            (addresses s) = None).
  { apply Array_find_None. intros x Hx. apply strict_eq_false. auto. }
  simpl. rewrite Hlen, Hfind. reflexivity.
Qed.

Lemma person_added (s : AppState) (fn ln : jsstring) (found : JSObject) :
  get "firstName" (values s) = VString fn ->
  get "lastName" (values s) = VString ln ->
  trim fn <> [] -> trim ln <> [] ->
  truthy (get "selectedAddress" (values s)) = true ->
  Array_find (fun address => strict_eq (get "id" address)
                               (get "selectedAddress" (values s)))
             (addresses s) = Some found ->
  let entry := <[ lit "lastName" := VString ln ]>
               (<[ lit "firstName" := VString fn ]> found) in
  fire person s
  = (Normal tt,
     {| state := {| values := values s; error := error s;
                    addresses := addresses s;
                    addressBook := addAddress (addressBook s) entry |};
        trace := [AddAddress entry] |}).
Proof.
  intros Hfn Hln Tf Tl Hsel Hfind entry. subst entry.
  unfold fire, handlePersonSubmit. rewrite Hfn, Hln.
  apply is_empty_false in Tf, Tl.
  cbv [or_else blank js_trim bind ret]. rewrite Tf, Tl, Hsel.
  assert (Hlen : (length (addresses s) =? 0)%nat = false)
    by (destruct (addresses s); [discriminate|reflexivity]).
  rewrite Hfind. simpl. rewrite Hlen. reflexivity.
Qed.

(** A person submission never touches the form values or the result
    list, whichever way it ends. *)
Lemma person_frame (s : AppState) :
  values (after person s) = values s
  /\ addresses (after person s) = addresses s.
Proof.
  open_handler. repeat branch; try (split; reflexivity).
  all: destruct (negb (truthy _) || _); simpl; try (split; reflexivity).
  all: destruct (Array_find _ _); split; reflexivity.
Qed.

End PersonProps.

(** ** The search-and-select workflow *)

Section Workflow.

Variable NEXT_PUBLIC_URL : jsstring.
Variable encodeURIComponent : JSVal -> Completion jsstring.
Variable RawAddressModel : Type.
Variable fetch : jsstring -> FetchOutcome RawAddressModel.
Variable transformAddress :
  RawAddressModel -> nat -> list RawAddressModel -> JSObject.
Variable addAddress : list JSObject -> JSObject -> list JSObject.

Local Abbreviation search :=
  (handleAddressSubmit NEXT_PUBLIC_URL encodeURIComponent fetch
     transformAddress).
Local Abbreviation person := (handlePersonSubmit addAddress).
Local Abbreviation url := (getAddresses_url NEXT_PUBLIC_URL).

(** After a successful fetch of [N] records the result list has [N]
    entries, the [i]-th being the transformer's result on the [i]-th
    record; the transformer is called with that record, its index and the
    array, and with nothing else. *)
Lemma search_result_shape (s : AppState) (pc hn e1 e2 : jsstring)
  (details : list RawAddressModel) :
  submitted encodeURIComponent s pc hn e1 e2 ->
  fetch_succeeds (fetch (url e1 e2)) details ->
  length (addresses (after search s)) = length details
  /\ (forall i : nat,
        addresses (after search s) !! i
        = (fun raw => transformAddress raw i details) <$> (details !! i))
  /\ error (after search s) = None.
Proof.
  intros Hs Hok. unfold after.
  rewrite (search_succeeded _ _ _ _ _ _ _ _ _ _ _ Hs Hok). simpl.
  split; [apply Array_map_length|]. split; [|reflexivity].
  intros i. apply Array_map_lookup.
Qed.

(** Two searches that get the same records back list the same addresses,
    whatever house numbers were typed in. *)
Lemma search_result_ignores_form (s1 s2 : AppState)
  (pc1 hn1 a1 b1 pc2 hn2 a2 b2 : jsstring) (details : list RawAddressModel) :
  submitted encodeURIComponent s1 pc1 hn1 a1 b1 ->
  submitted encodeURIComponent s2 pc2 hn2 a2 b2 ->
  fetch_succeeds (fetch (url a1 b1)) details ->
  fetch_succeeds (fetch (url a2 b2)) details ->
  addresses (after search s1) = addresses (after search s2).
Proof.
  intros H1 H2 F1 F2. unfold after.
  rewrite (search_succeeded _ _ _ _ _ _ _ _ _ _ _ H1 F1).
  rewrite (search_succeeded _ _ _ _ _ _ _ _ _ _ _ H2 F2).
  reflexivity.
Qed.

(** C4. A search submitted with a postcode or a house number that is empty
    after trimming issues no network call and sets the error message to
    exactly "Post code and house number are mandatory!". *)
Theorem blank_search_rejected (s : AppState) (pc hn : jsstring) :
  get "postCode" (values s) = VString pc ->
  get "houseNumber" (values s) = VString hn ->
  trim pc = [] \/ trim hn = [] ->
  network_calls (calls search s) = []
  /\ error (after search s) = Some MSG_MANDATORY_SEARCH
  /\ completion search s = Normal tt.
Proof.
  intros Hpc Hhn Hblank. unfold calls, after, completion.
  rewrite (search_blank _ _ _ _ _ _ _ _ Hpc Hhn Hblank).
  repeat split.
Qed.

(** C9. Every search submission begins by emptying the result list and
    clearing the error, before it validates; so when the validation fails
    the result list is empty and the error is the mandatory-fields
    message. *)
Theorem search_clears_then_validates (s : AppState) :
  (exists rest : list Op,
      calls search s = SetAddresses [] :: SetError None :: rest)
  /\ (forall (l : list JSObject) (e : option jsstring),
        fire search {| values := values s; error := e; addresses := l;
                       addressBook := addressBook s |}
        = fire search s)
  /\ (forall pc hn : jsstring,
        get "postCode" (values s) = VString pc ->
        get "houseNumber" (values s) = VString hn ->
        trim pc = [] \/ trim hn = [] ->
        calls search s
        = [SetAddresses []; SetError None;
           SetError (Some MSG_MANDATORY_SEARCH)]
        /\ addresses (after search s) = []
        /\ error (after search s) = Some MSG_MANDATORY_SEARCH).
Proof.
  split; [apply search_clears_first|].
  split; [intros l e; apply search_forgets|].
  intros pc hn Hpc Hhn Hblank. unfold calls, after.
  rewrite (search_blank _ _ _ _ _ _ _ _ Hpc Hhn Hblank).
  repeat split.
Qed.

(** C3. When the fetch of a search fails (network error, status outside
    200..299, or a body that is not JSON) the result list ends up empty
    whatever it held before, the error shown is exactly "Failed to fetch
    addresses. Please try again.", and the underlying error goes to
    [console.error] and nowhere else. *)
Theorem failed_fetch_reported (s : AppState) (pc hn e1 e2 : jsstring)
  (err : JSError) :
  submitted encodeURIComponent s pc hn e1 e2 ->
  fetch_fails (fetch (url e1 e2)) err ->
  addresses (after search s) = []
  /\ error (after search s) = Some MSG_FETCH_FAILED
  /\ diagnostics (calls search s) = [err]
  /\ calls search s
     = [SetAddresses []; SetError None; FetchCall (url e1 e2);
        ConsoleError err; SetError (Some MSG_FETCH_FAILED)]
  /\ completion search s = Normal tt.
Proof.
  intros Hs Hfail. unfold calls, after, completion.
  rewrite (search_failed _ _ _ _ _ _ _ _ _ _ _ Hs Hfail).
  repeat split.
Qed.

(** C2. The person form is validated fail-fast, the first failing check
    deciding the message: the names, then the presence of a selection and
    of results, then the presence of the selected identifier among the
    results. A failing submission sets the error and does nothing else; in
    particular it adds nothing to the address book. *)
Theorem person_validation_order (s : AppState) (fn ln sel : jsstring) :
  get "firstName" (values s) = VString fn ->
  get "lastName" (values s) = VString ln ->
  get "selectedAddress" (values s) = VString sel ->
  (trim fn = [] \/ trim ln = [] ->
   fire person s = failed_with MSG_MANDATORY_NAMES s)
  /\ (trim fn <> [] -> trim ln <> [] ->
      sel = [] \/ addresses s = [] ->
      fire person s = failed_with MSG_NO_ADDRESS s)
  /\ (trim fn <> [] -> trim ln <> [] ->
      sel <> [] -> addresses s <> [] ->
      (forall a, a ∈ addresses s -> get "id" a <> VString sel) ->
      fire person s = failed_with MSG_NOT_FOUND s)
  /\ (forall msg : jsstring,
        fire person s = failed_with msg s ->
        error (after person s) = Some msg
        /\ addressBook (after person s) = addressBook s
        /\ calls person s = [SetError (Some msg)]).
Proof.
  intros Hfn Hln Hsel. split; [|split; [|split]].
  - intros Hblank. now apply (person_blank _ _ fn ln).
  - intros Tf Tl Hno. apply (person_no_address _ _ fn ln); auto.
    rewrite Hsel. destruct Hno as [-> | ->]; auto.
  - intros Tf Tl Hs Hne Hnone. apply (person_not_found _ _ fn ln); auto.
    + rewrite Hsel. simpl. now apply negb_true_iff, is_empty_false.
    + rewrite Hsel. exact Hnone.
  - intros msg Hfire. unfold after, calls. rewrite Hfire. repeat split.
Qed.

(** C8. "Clear all fields" puts the form values back to the initial
    snapshot, empties the result list and clears the error, in the one
    run of its handler; the address book is not touched. *)
Theorem clear_all_resets (s : AppState) :
  values (after handleClearAll s) = initialValues
  /\ addresses (after handleClearAll s) = []
  /\ error (after handleClearAll s) = None
  /\ addressBook (after handleClearAll s) = addressBook s
  /\ calls handleClearAll s
     = [SetValues initialValues; SetAddresses []; SetError None]
  /\ completion handleClearAll s = Normal tt.
Proof. repeat split. Qed.

(** C10, amended. A search changes no form value, so a selection made
    before it is still there afterwards. When that selection matches no
    entry of the new result list, a person submission with both names
    filled in fails with "Selected address not found" if the new list is
    not empty, and with "No address selected, ..." if it is empty. *)
Theorem search_keeps_selection (s : AppState) (fn ln sel : jsstring) :
  get "firstName" (values s) = VString fn ->
  get "lastName" (values s) = VString ln ->
  get "selectedAddress" (values s) = VString sel ->
  trim fn <> [] -> trim ln <> [] -> sel <> [] ->
  (forall a, a ∈ addresses (after search s) -> get "id" a <> VString sel) ->
  values (after search s) = values s
  /\ (addresses (after search s) <> [] ->
      fire person (after search s)
      = failed_with MSG_NOT_FOUND (after search s))
  /\ (addresses (after search s) = [] ->
      fire person (after search s)
      = failed_with MSG_NO_ADDRESS (after search s)).
Proof.
  intros Hfn Hln Hsel Tf Tl Hs Hnone.
  destruct (search_frame NEXT_PUBLIC_URL encodeURIComponent _ fetch
              transformAddress s) as [Hv _].
  split; [exact Hv|]. split.
  - intros Hne. apply (person_not_found _ _ fn ln); rewrite ?Hv; auto.
    + rewrite Hsel. simpl. now apply negb_true_iff, is_empty_false.
    + rewrite Hsel. exact Hnone.
  - intros Hnil. apply (person_no_address _ _ fn ln); rewrite ?Hv; auto.
Qed.

End Workflow.

(** C5. A person submission that passes the three checks appends one
    entry to the end of the address book: the first result whose
    identifier is the selected one, with [firstName] and [lastName] set
    to the names supplied. The entries already there stay as they are, and
    so do the form values. *)
Theorem person_submission_appends (s : AppState) (fn ln sel : jsstring) :
  get "firstName" (values s) = VString fn ->
  get "lastName" (values s) = VString ln ->
  get "selectedAddress" (values s) = VString sel ->
  trim fn <> [] -> trim ln <> [] -> sel <> [] ->
  (exists a, a ∈ addresses s /\ get "id" a = VString sel) ->
  exists found entry : JSObject,
    found ∈ addresses s
    /\ get "id" found = VString sel
    /\ entry !! lit "firstName" = Some (VString fn)
    /\ entry !! lit "lastName" = Some (VString ln)
    /\ (forall k : jsstring,
          k <> lit "firstName" -> k <> lit "lastName" ->
          entry !! k = found !! k)
    /\ addressBook (after (handlePersonSubmit Spec.addAddress) s)
       = addressBook s ++ [entry]
    /\ calls (handlePersonSubmit Spec.addAddress) s = [AddAddress entry]
    /\ values (after (handlePersonSubmit Spec.addAddress) s) = values s
    /\ completion (handlePersonSubmit Spec.addAddress) s = Normal tt.
Proof.
  intros Hfn Hln Hsel Tf Tl Hs (a & Ha & Hid).
  destruct (Array_find (fun address => strict_eq (get "id" address)
                          (get "selectedAddress" (values s)))
                       (addresses s)) as [found|] eqn:Hfind.
  - pose proof Hfind as Hdec.
    apply Array_find_Some in Hdec as (pre & post & Hl & Hp & _).
    apply strict_eq_true in Hp. rewrite Hsel in Hp.
    exists found,
      (<[ lit "lastName" := VString ln ]>
       (<[ lit "firstName" := VString fn ]> found)).
    assert (Hsome : truthy (get "selectedAddress" (values s)) = true).
    { rewrite Hsel. simpl. now apply negb_true_iff, is_empty_false. }
    pose proof (person_added Spec.addAddress s fn ln found
                  Hfn Hln Tf Tl Hsome Hfind) as Hfire.
    simpl in Hfire. unfold after, calls, completion. rewrite Hfire. simpl.
    split; [rewrite Hl; apply elem_of_app; right; left|].
    split; [exact Hp|].
    split; [rewrite lookup_insert_ne by discriminate;
            apply lookup_insert_eq|].
    split; [apply lookup_insert_eq|].
    split; [|repeat split].
    intros k Hk1 Hk2.
    rewrite lookup_insert_ne by congruence.
    now rewrite lookup_insert_ne by congruence.
  - exfalso. eapply Array_find_None in Hfind; [|exact Ha].
    apply strict_eq_false in Hfind. rewrite Hsel in Hfind. auto.
Qed.

(** ** The form holds text

    The handlers above are stated for fields that hold strings. That is
    what the form holds from the start, and no event changes it as long
    as no control of the form is a checkbox. *)

Section TextForm.

Variable NEXT_PUBLIC_URL : jsstring.
Variable encodeURIComponent : JSVal -> Completion jsstring.
Variable RawAddressModel : Type.
Variable fetch : jsstring -> FetchOutcome RawAddressModel.
Variable transformAddress :
  RawAddressModel -> nat -> list RawAddressModel -> JSObject.
Variable addAddress : list JSObject -> JSObject -> list JSObject.

Lemma text_form_initial : text_form initialState.
Proof.
  unfold text_form, form_fields.
  repeat (constructor; [eexists; vm_compute; reflexivity|]). constructor.
Qed.

Lemma text_form_values (s s' : AppState) :
  values s' = values s -> text_form s -> text_form s'.
Proof. unfold text_form. now intros ->. Qed.

Lemma text_form_change (e : UseForm.ChangeTarget) (s : AppState) :
  UseForm.type e <> lit "checkbox" ->
  text_form s -> text_form (after (handleChange e) s).
Proof.
  intros Hty Hs. unfold text_form in *.
  eapply Forall_impl; [exact Hs|]. simpl. intros k [v Hv].
  unfold after, fire, handleChange, setValues, update, emit. simpl.
  unfold UseForm.handleChange. rewrite bool_decide_eq_false_2 by exact Hty.
  unfold get in *.
  destruct (decide (UseForm.name e = lit k)) as [->|Hne].
  - rewrite lookup_insert_eq. simpl. eauto.
  - rewrite lookup_insert_ne by exact Hne. eauto.
Qed.

Lemma text_form_search (s : AppState) :
  text_form s ->
  text_form (after (handleAddressSubmit NEXT_PUBLIC_URL encodeURIComponent
                      fetch transformAddress) s).
Proof. apply text_form_values, search_frame. Qed.

Lemma text_form_person (s : AppState) :
  text_form s -> text_form (after (handlePersonSubmit addAddress) s).
Proof. apply text_form_values, person_frame. Qed.

Lemma text_form_clear (s : AppState) :
  text_form (after handleClearAll s).
Proof.
  apply (text_form_values initialState); [reflexivity|].
  apply text_form_initial.
Qed.

End TextForm.

(** ** The scenario of the spec, replayed *)

(** C1. In the end-to-end scenario of the spec the fetch succeeds with
    one record, and the result list holds one address, built from that
    record; but its house number is the index [0] that [map] passed to the
    transformer, not the "350" that was submitted. *)
Theorem scenario_house_number_is_index :
  get "houseNumber" (values Scenario.filled) = VString (lit "350")
  /\ fetch_succeeds (Scenario.mock_fetch (Scenario.url_of "350"))
       [Scenario.record1]
  /\ addresses (after Scenario.search Scenario.filled)
     = [Spec.transformAddress Scenario.record1 (VNumber 0)]
  /\ List.map (get "houseNumber")
       (addresses (after Scenario.search Scenario.filled))
     = [VNumber 0]
  /\ List.map (get "houseNumber")
       (addresses (after Scenario.search Scenario.filled))
     <> [VString (lit "350")].
Proof.
  split; [vm_compute; reflexivity|].
  split.
  - change (Scenario.mock_fetch (Scenario.url_of "350"))
      with (FetchResolved
              {| status := 200;
                 json := JsonResolved (Body (lit "ok") [Scenario.record1]) |}).
    apply (success _ (lit "ok")); [|reflexivity].
    simpl. split; apply N.leb_le; reflexivity.
  - split; [vm_compute; reflexivity|].
    split; [vm_compute; reflexivity|].
    vm_compute. discriminate.
Qed.

(** The rest of the scenario: with the result selected and the names "A"
    and "B" submitted, the address book grows by one entry with those
    names. *)
Lemma scenario_entry_added :
  length (addressBook (after Scenario.person Scenario.ready))
  = S (length (addressBook Scenario.ready))
  /\ List.map (fun k => List.map (get k)
                (addressBook (after Scenario.person Scenario.ready)))
       ["id"; "street"; "city"; "postcode"; "firstName"; "lastName"]%string
     = [[VString (lit "1")]; [VString (lit "Main")]; [VString (lit "X")];
        [VString (lit "1345")]; [VString (lit "A")]; [VString (lit "B")]].
Proof. split; vm_compute; reflexivity. Qed.

(** C10, as stated, fails: the selection "1" survives a search that finds
    nothing, it matches no entry of the new (empty) result list, and the
    person submission that follows reports "No address selected, ...",
    not "Selected address not found". *)
Lemma stale_selection_on_empty_results :
  Scenario.emptied = after Scenario.search Scenario.empty_number
  /\ get "selectedAddress" (values Scenario.empty_number) = VString (lit "1")
  /\ get "selectedAddress" (values Scenario.emptied) = VString (lit "1")
  /\ (forall a, a ∈ addresses Scenario.emptied ->
                get "id" a <> VString (lit "1"))
  /\ error (after Scenario.person Scenario.emptied) = Some MSG_NO_ADDRESS
  /\ error (after Scenario.person Scenario.emptied) <> Some MSG_NOT_FOUND.
Proof.
  split; [reflexivity|].
  split; [vm_compute; reflexivity|].
  split; [vm_compute; reflexivity|].
  split.
  - intros a Ha. exfalso. revert Ha.
    replace (addresses Scenario.emptied) with (@nil JSObject)
      by (vm_compute; reflexivity).
    apply not_elem_of_nil.
  - split; [vm_compute; reflexivity|]. vm_compute. discriminate.
Qed.

(** ** The theorems at work on the scenario *)

Ltac evaluate := vm_compute; first [reflexivity | discriminate].

(** A blanked postcode, with a result still listed: no request, and the
    mandatory-fields message. *)
Lemma blank_search_rejected_witness :
  get "postCode" (values Scenario.blanked) = VString (lit "  ")
  /\ get "houseNumber" (values Scenario.blanked) = VString (lit "350")
  /\ trim (lit "  ") = []
  /\ network_calls (calls Scenario.search Scenario.blanked) = []
  /\ error (after Scenario.search Scenario.blanked)
     = Some MSG_MANDATORY_SEARCH
  /\ completion Scenario.search Scenario.blanked = Normal tt.
Proof.
  assert (H1 : get "postCode" (values Scenario.blanked) = VString (lit "  "))
    by evaluate.
  assert (H2 : get "houseNumber" (values Scenario.blanked)
               = VString (lit "350")) by evaluate.
  assert (H3 : trim (lit "  ") = []) by evaluate.
  split; [exact H1|]. split; [exact H2|]. split; [exact H3|].
  exact (blank_search_rejected Scenario.base_url Builtins.encodeURIComponent
           _ Scenario.mock_fetch (as_map_callback Spec.transformAddress)
           Scenario.blanked (lit "  ") (lit "350") H1 H2 (or_introl H3)).
Defined.

(** The same submission empties the result list it found. *)
Lemma search_clears_then_validates_witness :
  addresses Scenario.blanked <> []
  /\ trim (lit "  ") = []
  /\ calls Scenario.search Scenario.blanked
     = [SetAddresses []; SetError None;
        SetError (Some MSG_MANDATORY_SEARCH)]
  /\ addresses (after Scenario.search Scenario.blanked) = []
  /\ error (after Scenario.search Scenario.blanked)
     = Some MSG_MANDATORY_SEARCH.
Proof.
  assert (H1 : get "postCode" (values Scenario.blanked) = VString (lit "  "))
    by evaluate.
  assert (H2 : get "houseNumber" (values Scenario.blanked)
               = VString (lit "350")) by evaluate.
  assert (H3 : trim (lit "  ") = []) by evaluate.
  split; [evaluate|]. split; [exact H3|].
  exact (proj2 (proj2
           (search_clears_then_validates Scenario.base_url
              Builtins.encodeURIComponent _ Scenario.mock_fetch
              (as_map_callback Spec.transformAddress) Scenario.blanked))
           (lit "  ") (lit "350") H1 H2 (or_introl H3)).
Defined.

(** House number 9 gets a 404: the list is emptied, the fixed message is
    shown, and the status goes to the console. *)
Lemma failed_fetch_reported_witness :
  addresses Scenario.unknown_number <> []
  /\ submitted Builtins.encodeURIComponent Scenario.unknown_number
       (lit "1345") (lit "9") (lit "1345") (lit "9")
  /\ fetch_fails (Scenario.mock_fetch (Scenario.url_of "9")) (ApiError 404)
  /\ addresses (after Scenario.search Scenario.unknown_number) = []
  /\ error (after Scenario.search Scenario.unknown_number)
     = Some MSG_FETCH_FAILED
  /\ diagnostics (calls Scenario.search Scenario.unknown_number)
     = [ApiError 404].
Proof.
  assert (H1 : submitted Builtins.encodeURIComponent Scenario.unknown_number
                 (lit "1345") (lit "9") (lit "1345") (lit "9"))
    by (repeat split; evaluate).
  assert (H2 : fetch_fails (Scenario.mock_fetch (Scenario.url_of "9"))
                 (ApiError 404)).
  { change (Scenario.mock_fetch (Scenario.url_of "9"))
      with (@FetchResolved Spec.RawAddressRecord
              {| status := 404; json := JsonRejected SyntaxError |}).
    apply (bad_status {| status := 404; json := JsonRejected SyntaxError |}).
    right. reflexivity. }
  split; [evaluate|]. split; [exact H1|]. split; [exact H2|].
  destruct (failed_fetch_reported Scenario.base_url
              Builtins.encodeURIComponent _ Scenario.mock_fetch
              (as_map_callback Spec.transformAddress)
              Scenario.unknown_number (lit "1345") (lit "9") (lit "1345")
              (lit "9") (ApiError 404) H1 H2) as (Ha & He & Hd & _).
  split; [exact Ha|]. split; [exact He|exact Hd].
Defined.

(** The three checks, each failing in turn. *)
Lemma person_validation_order_witness :
  fire Scenario.person Scenario.unnamed
  = failed_with MSG_MANDATORY_NAMES Scenario.unnamed
  /\ fire Scenario.person Scenario.unselected
     = failed_with MSG_NO_ADDRESS Scenario.unselected
  /\ fire Scenario.person Scenario.stale
     = failed_with MSG_NOT_FOUND Scenario.stale
  /\ addressBook (after Scenario.person Scenario.stale)
     = addressBook Scenario.stale.
Proof.
  assert (U : fire Scenario.person Scenario.unnamed
              = failed_with MSG_MANDATORY_NAMES Scenario.unnamed).
  { apply (proj1 (person_validation_order Spec.addAddress Scenario.unnamed
                    [] [] (lit "1") ltac:(evaluate) ltac:(evaluate)
                    ltac:(evaluate))).
    left. evaluate. }
  assert (N : fire Scenario.person Scenario.unselected
              = failed_with MSG_NO_ADDRESS Scenario.unselected).
  { apply (proj1 (proj2 (person_validation_order Spec.addAddress
                    Scenario.unselected (lit "A") (lit "B") []
                    ltac:(evaluate) ltac:(evaluate) ltac:(evaluate))));
      [evaluate | evaluate | left; reflexivity]. }
  pose proof (person_validation_order Spec.addAddress Scenario.stale
                (lit "A") (lit "B") (lit "1")
                ltac:(evaluate) ltac:(evaluate) ltac:(evaluate))
    as (_ & _ & F & G).
  assert (S : fire Scenario.person Scenario.stale
              = failed_with MSG_NOT_FOUND Scenario.stale).
  { apply F; [evaluate | evaluate | evaluate | evaluate |].
    intros a Ha.
    assert (E : addresses Scenario.stale
                = [Spec.transformAddress Scenario.record2 (VNumber 0)])
      by evaluate.
    rewrite E in Ha. apply list_elem_of_singleton in Ha. subst a. evaluate. }
  split; [exact U|]. split; [exact N|]. split; [exact S|].
  exact (proj1 (proj2 (G MSG_NOT_FOUND S))).
Defined.

(** The selection "1" outlives the search for house number 8, whose only
    result has identifier "2". *)
Lemma search_keeps_selection_witness :
  get "selectedAddress" (values Scenario.other_number) = VString (lit "1")
  /\ addresses (after Scenario.search Scenario.other_number) <> []
  /\ values (after Scenario.search Scenario.other_number)
     = values Scenario.other_number
  /\ fire Scenario.person (after Scenario.search Scenario.other_number)
     = failed_with MSG_NOT_FOUND
         (after Scenario.search Scenario.other_number).
Proof.
  assert (Hsel : get "selectedAddress" (values Scenario.other_number)
                 = VString (lit "1")) by evaluate.
  assert (Hne : addresses (after Scenario.search Scenario.other_number) <> [])
    by evaluate.
  assert (Hnone : forall a,
             a ∈ addresses (after Scenario.search Scenario.other_number) ->
             get "id" a <> VString (lit "1")).
  { intros a Ha.
    assert (E : addresses (after Scenario.search Scenario.other_number)
                = [Spec.transformAddress Scenario.record2 (VNumber 0)])
      by evaluate.
    rewrite E in Ha. apply list_elem_of_singleton in Ha. subst a. evaluate. }
  pose proof (search_keeps_selection Scenario.base_url
                Builtins.encodeURIComponent _ Scenario.mock_fetch
                (as_map_callback Spec.transformAddress) Spec.addAddress
                Scenario.other_number (lit "A") (lit "B") (lit "1")
                ltac:(evaluate) ltac:(evaluate) Hsel
                ltac:(evaluate) ltac:(evaluate) ltac:(evaluate) Hnone)
    as (Hv & Hnf & _).
  split; [exact Hsel|]. split; [exact Hne|]. split; [exact Hv|].
  exact (Hnf Hne).
Defined.

(** The submission of the scenario appends the entry of "A" "B". *)
Lemma person_submission_appends_witness :
  exists found entry : JSObject,
    found ∈ addresses Scenario.ready
    /\ get "id" found = VString (lit "1")
    /\ entry !! lit "firstName" = Some (VString (lit "A"))
    /\ entry !! lit "lastName" = Some (VString (lit "B"))
    /\ addressBook (after Scenario.person Scenario.ready)
       = addressBook Scenario.ready ++ [entry]
    /\ values (after Scenario.person Scenario.ready) = values Scenario.ready.
Proof.
  assert (Hex : exists a, a ∈ addresses Scenario.ready
                          /\ get "id" a = VString (lit "1")).
  { exists (Spec.transformAddress Scenario.record1 (VNumber 0)).
    split; [|evaluate].
    replace (addresses Scenario.ready)
      with [Spec.transformAddress Scenario.record1 (VNumber 0)] by evaluate.
    apply list_elem_of_here. }
  destruct (person_submission_appends Scenario.ready (lit "A") (lit "B")
              (lit "1") ltac:(evaluate) ltac:(evaluate) ltac:(evaluate)
              ltac:(evaluate) ltac:(evaluate) ltac:(evaluate) Hex)
    as (found & entry & H1 & H2 & H3 & H4 & _ & H6 & _ & H8 & _).
  exists found, entry. repeat split; assumption.
Defined.

(** * Further properties of the code *)

(** ** Histories of the hook *)

Lemma handleChange_lookup (e : UseForm.ChangeTarget) (vs : JSObject)
  (k : jsstring) :
  UseForm.handleChange e vs !! k
  = if bool_decide (UseForm.name e = k) then Some (stored e) else vs !! k.
Proof.
  unfold UseForm.handleChange. fold (stored e).
  destruct (decide (UseForm.name e = k)) as [->|Hne].
  - rewrite lookup_insert_eq. now rewrite bool_decide_eq_true_2.
  - rewrite lookup_insert_ne by exact Hne.
    now rewrite bool_decide_eq_false_2.
Qed.

Lemma run_changes_lookup (V : JSObject) (es : list UseForm.ChangeTarget)
  (vs : JSObject) (k : jsstring) :
  UseForm.run V (List.map UseForm.Change es) vs !! k
  = match last_change k es with
    | Some v => Some v
    | None => vs !! k
    end.
Proof.
  revert vs. induction es as [|e es IH]; intros vs; [reflexivity|].
  change (UseForm.run V (List.map UseForm.Change (e :: es)) vs)
    with (UseForm.run V (List.map UseForm.Change es)
            (UseForm.handleChange e vs)).
  rewrite IH. simpl. destruct (last_change k es); [reflexivity|].
  rewrite handleChange_lookup.
  now destruct (bool_decide (UseForm.name e = k)).
Qed.

(** X1. After any sequence of changes a field holds what the last change
    that names it stored, and what it held before if none names it: the
    changes to other fields, and their order, do not matter. *)
Theorem changes_lookup (V : JSObject) (es : list UseForm.ChangeTarget)
  (vs : JSObject) (k : jsstring) :
  UseForm.run V (List.map UseForm.Change es) vs !! k
  = match last_change k es with
    | Some v => Some v
    | None => vs !! k
    end.
Proof.
  revert vs. induction es as [|e es IH]; intros vs; [reflexivity|].
  change (UseForm.run V (List.map UseForm.Change (e :: es)) vs)
    with (UseForm.run V (List.map UseForm.Change es)
            (UseForm.handleChange e vs)).
  rewrite IH. simpl. destruct (last_change k es) as [v|]; [reflexivity|].
  rewrite handleChange_lookup.
  destruct (bool_decide (UseForm.name e = k)); reflexivity.
Qed.

(** X2. Whatever happened before a reset is forgotten: after it a field
    holds what the last later change stored in it, and its initial value
    if there was none. *)
Theorem history_after_reset (V : JSObject) (before : list UseForm.Action)
  (es : list UseForm.ChangeTarget) (vs : JSObject) (k : jsstring) :
  UseForm.run V (before ++ UseForm.Reset :: List.map UseForm.Change es) vs
    !! k
  = match last_change k es with
    | Some v => Some v
    | None => V !! k
    end.
Proof.
  rewrite UseFormProps.run_app.
  change (UseForm.run V (UseForm.Reset :: List.map UseForm.Change es)
            (UseForm.run V before vs))
    with (UseForm.run V (List.map UseForm.Change es) V).
  apply run_changes_lookup.
Qed.

(** ** More on the search handler *)

Section SearchMore.

Variable NEXT_PUBLIC_URL : jsstring.
Variable encodeURIComponent : JSVal -> Completion jsstring.
Variable RawAddressModel : Type.
Variable fetch : jsstring -> FetchOutcome RawAddressModel.
Variable transformAddress :
  RawAddressModel -> nat -> list RawAddressModel -> JSObject.

Local Abbreviation search :=
  (handleAddressSubmit NEXT_PUBLIC_URL encodeURIComponent fetch
     transformAddress).
Local Abbreviation url := (getAddresses_url NEXT_PUBLIC_URL).

Lemma AppState_eta (s : AppState) :
  s = {| values := values s; error := error s; addresses := addresses s;
         addressBook := addressBook s |}.
Proof. now destruct s. Qed.

(** Submitting the same search again changes nothing: the second run
    makes the same calls and leaves the same state as the first, whatever
    the first one left in the result list and the error. *)
Lemma search_twice (s : AppState) :
  fire search (after search s) = fire search s.
Proof.
  destruct (search_frame NEXT_PUBLIC_URL encodeURIComponent _ fetch
              transformAddress s) as [Hv Hb].
  rewrite (AppState_eta (after search s)), Hv, Hb.
  apply search_forgets.
Qed.

Lemma search_at_most_one_request (s : AppState) :
  (length (network_calls (calls search s)) <= 1)%nat.
Proof.
  open_handler. repeat branch; simpl; lia.
Qed.

(** X3. A search never sends more than one request; and once the two
    fields pass the validation and encode, it sends exactly one, to the
    [getAddresses] URL with the encoded postcode and house number,
    whatever the answer turns out to be. *)
Theorem search_requests_once (s : AppState) :
  (length (network_calls (calls search s)) <= 1)%nat
  /\ (forall pc hn e1 e2 : jsstring,
        submitted encodeURIComponent s pc hn e1 e2 ->
        network_calls (calls search s) = [url e1 e2]).
Proof.
  split; [apply search_at_most_one_request|].
  intros pc hn e1 e2 (Hpc & Hhn & Tp & Th & E1 & E2).
  unfold calls, fire, handleAddressSubmit. rewrite Hpc, Hhn. run_handler.
  apply is_empty_false in Tp, Th. rewrite Tp, Th, E1, E2.
  destruct (fetch (url e1 e2)) as [e|res]; simpl; [reflexivity|].
  destruct (ok res); simpl; [|reflexivity].
  destruct (json res) as [e|[st ds|]]; reflexivity.
Qed.

(** X4. A field that cannot be encoded (a lone surrogate makes
    [encodeURIComponent] throw) is reported like a failed fetch: no
    request is sent, the result list is empty, the message is the generic
    one and the error goes to [console.error]. *)
Theorem unencodable_field_reported (s : AppState) (pc hn : jsstring)
  (err : JSError) :
  get "postCode" (values s) = VString pc ->
  get "houseNumber" (values s) = VString hn ->
  trim pc <> [] -> trim hn <> [] ->
  encodeURIComponent (VString pc) = Throw err
  \/ (exists e1, encodeURIComponent (VString pc) = Normal e1
                 /\ encodeURIComponent (VString hn) = Throw err) ->
  fire search s
  = (Normal tt,
     {| state := {| values := values s; error := Some MSG_FETCH_FAILED;
                    addresses := []; addressBook := addressBook s |};
        trace := [SetAddresses []; SetError None; ConsoleError err;
                  SetError (Some MSG_FETCH_FAILED)] |}).
Proof.
  intros Hpc Hhn Tp Th Henc.
  unfold fire, handleAddressSubmit. rewrite Hpc, Hhn. run_handler.
  apply is_empty_false in Tp, Th. rewrite Tp, Th.
  destruct Henc as [E | (e1 & E1 & E2)].
  - rewrite E. reflexivity.
  - rewrite E1, E2. reflexivity.
Qed.

(** X5. A response with a good status whose body parses but has no
    [details] array is reported like a failed fetch: [map] is not there to
    call, the [TypeError] is caught, and the result list stays empty. *)
Theorem ill_shaped_body_reported (s : AppState) (pc hn e1 e2 : jsstring)
  (res : Response RawAddressModel) :
  submitted encodeURIComponent s pc hn e1 e2 ->
  fetch (url e1 e2) = FetchResolved res ->
  200 <= status res <= 299 ->
  json res = JsonResolved IllShaped ->
  fire search s
  = (Normal tt,
     {| state := {| values := values s; error := Some MSG_FETCH_FAILED;
                    addresses := []; addressBook := addressBook s |};
        trace := [SetAddresses []; SetError None; FetchCall (url e1 e2);
                  ConsoleError TypeError;
                  SetError (Some MSG_FETCH_FAILED)] |}).
Proof.
  intros (Hpc & Hhn & Tp & Th & E1 & E2) Hf Hs Hj.
  unfold fire, handleAddressSubmit. rewrite Hpc, Hhn. run_handler.
  apply is_empty_false in Tp, Th. rewrite Tp, Th, E1, E2, Hf. simpl.
  assert (Hok : ok res = true)
    by (unfold ok; apply andb_true_iff; split; apply N.leb_le; lia).
  rewrite Hok, Hj. reflexivity.
Qed.

(** X6. The validation is outside the [try]: when the postcode field does
    not hold a string, [trim] is not there to call and the handler throws,
    after it has emptied the result list and cleared the error; no message
    is set and no request is sent. *)
Theorem non_text_field_throws (s : AppState) :
  (forall str : jsstring, get "postCode" (values s) <> VString str) ->
  fire search s
  = (Throw TypeError,
     {| state := {| values := values s; error := None;
                    addresses := []; addressBook := addressBook s |};
        trace := [SetAddresses []; SetError None] |}).
Proof.
  intros Hns. unfold fire, handleAddressSubmit.
  destruct (get "postCode" (values s)) as [| b | n | str] eqn:E;
    try reflexivity.
  now destruct (Hns str).
Qed.

(** X7. Right after "Clear all fields" both forms are rejected by their
    mandatory-field checks: a search sends no request, a person submission
    adds nothing to the address book. *)
Theorem submit_after_clear (s : AppState)
  (addAddress : list JSObject -> JSObject -> list JSObject) :
  fire search (after handleClearAll s)
  = (Normal tt,
     {| state := {| values := initialValues;
                    error := Some MSG_MANDATORY_SEARCH;
                    addresses := []; addressBook := addressBook s |};
        trace := [SetAddresses []; SetError None;
                  SetError (Some MSG_MANDATORY_SEARCH)] |})
  /\ fire (handlePersonSubmit addAddress) (after handleClearAll s)
     = failed_with MSG_MANDATORY_NAMES (after handleClearAll s).
Proof.
  assert (Hget : forall k, In k form_fields ->
                   get k (values (after handleClearAll s)) = VString []).
  { intros k Hk. change (values (after handleClearAll s)) with initialValues.
    simpl in Hk.
    repeat (destruct Hk as [<- | Hk]; [vm_compute; reflexivity|]).
    destruct Hk. }
  split.
  - exact (search_blank NEXT_PUBLIC_URL encodeURIComponent _ fetch
             transformAddress (after handleClearAll s) [] []
             (Hget "postCode"%string ltac:(simpl; tauto))
             (Hget "houseNumber"%string ltac:(simpl; tauto))
             (or_introl eq_refl)).
  - exact (person_blank addAddress (after handleClearAll s) [] []
             (Hget "firstName"%string ltac:(simpl; tauto))
             (Hget "lastName"%string ltac:(simpl; tauto))
             (or_introl eq_refl)).
Qed.

End SearchMore.

(** ** More on the person handler *)

Lemma get_after_change (e : UseForm.ChangeTarget) (s : AppState) (k : string) :
  get k (values (after (handleChange e) s))
  = if bool_decide (UseForm.name e = lit k) then stored e
    else get k (values s).
Proof.
  unfold get.
  change (values (after (handleChange e) s))
    with (UseForm.handleChange e (values s)).
  rewrite handleChange_lookup.
  now destruct (bool_decide (UseForm.name e = lit k)).
Qed.

Lemma change_frame (e : UseForm.ChangeTarget) (s : AppState) :
  error (after (handleChange e) s) = error s
  /\ addresses (after (handleChange e) s) = addresses s
  /\ addressBook (after (handleChange e) s) = addressBook s.
Proof. repeat split. Qed.

Section PersonMore.

Variable addAddress : list JSObject -> JSObject -> list JSObject.

Local Abbreviation person := (handlePersonSubmit addAddress).

Lemma person_first_match (s : AppState) (fn ln sel : jsstring)
  (pre post : list JSObject) (a : JSObject) :
  get "firstName" (values s) = VString fn ->
  get "lastName" (values s) = VString ln ->
  get "selectedAddress" (values s) = VString sel ->
  trim fn <> [] -> trim ln <> [] -> sel <> [] ->
  addresses s = pre ++ a :: post ->
  (forall y, y ∈ pre -> get "id" y <> VString sel) ->
  get "id" a = VString sel ->
  fire person s = added addAddress (entry_of a (VString fn) (VString ln)) s.
Proof.
  intros Hfn Hln Hsel Tf Tl Hs Hl Hpre Ha.
  apply (person_added addAddress s fn ln a Hfn Hln Tf Tl).
  - rewrite Hsel. simpl. now apply negb_true_iff, is_empty_false.
  - apply Array_find_Some. exists pre, post. rewrite Hsel.
    split; [exact Hl|]. split; [now apply strict_eq_true|].
    intros y Hy. apply strict_eq_false. auto.
Qed.

(** X8. When several results carry the selected identifier, the entry
    is made from the first of them: the handler dispatches that address
    with the two names set, and touches nothing but the address book. *)
Theorem person_picks_first_match (s : AppState) (fn ln sel : jsstring)
  (pre post : list JSObject) (a : JSObject) :
  get "firstName" (values s) = VString fn ->
  get "lastName" (values s) = VString ln ->
  get "selectedAddress" (values s) = VString sel ->
  trim fn <> [] -> trim ln <> [] -> sel <> [] ->
  addresses s = pre ++ a :: post ->
  (forall y, y ∈ pre -> get "id" y <> VString sel) ->
  get "id" a = VString sel ->
  fire person s = added addAddress (entry_of a (VString fn) (VString ln)) s.
Proof.
  intros Hfn Hln Hsel Tf Tl Hs Hl Hpre Ha.
  assert (Hsome : truthy (get "selectedAddress" (values s)) = true).
  { rewrite Hsel. simpl. now apply negb_true_iff, is_empty_false. }
  assert (Hfind : Array_find
            (fun address => strict_eq (get "id" address)
                              (get "selectedAddress" (values s)))
            (addresses s) = Some a).
  { apply Array_find_Some. exists pre, post. rewrite Hsel.
    split; [exact Hl|]. split; [now apply strict_eq_true|].
    intros y Hy. apply strict_eq_false. auto. }
  exact (person_added addAddress s fn ln a Hfn Hln Tf Tl Hsome Hfind).
Qed.

(** X9. The handler has no guard against submitting twice: a second
    submission of the same form dispatches the same entry again. *)
Theorem person_twice (s : AppState) (fn ln sel : jsstring)
  (pre post : list JSObject) (a : JSObject) :
  get "firstName" (values s) = VString fn ->
  get "lastName" (values s) = VString ln ->
  get "selectedAddress" (values s) = VString sel ->
  trim fn <> [] -> trim ln <> [] -> sel <> [] ->
  addresses s = pre ++ a :: post ->
  (forall y, y ∈ pre -> get "id" y <> VString sel) ->
  get "id" a = VString sel ->
  let entry := entry_of a (VString fn) (VString ln) in
  fire person (after person s) = added addAddress entry (after person s)
  /\ addressBook (after person (after person s))
     = addAddress (addAddress (addressBook s) entry) entry.
Proof.
  intros Hfn Hln Hsel Tf Tl Hs Hl Hpre Ha entry.
  pose proof (person_first_match s fn ln sel pre post a
                Hfn Hln Hsel Tf Tl Hs Hl Hpre Ha) as H1.
  destruct (person_frame addAddress s) as [Hv Hr].
  assert (H2 : fire person (after person s) = added addAddress entry (after person s)).
  { apply (person_first_match _ fn ln sel pre post a);
      rewrite ?Hv, ?Hr; auto. }
  split; [exact H2|].
  unfold after at 1. rewrite H2. simpl.
  unfold after. now rewrite H1.
Qed.

(** X10. A submission that goes through does not clear the error: after
    a submission rejected for its names, typing the two names and
    submitting again adds the entry and leaves "First name and last name
    fields mandatory!" in the state. *)
Theorem stale_error_after_success (s : AppState) (fn0 ln0 fn ln sel : jsstring)
  (e1 e2 : UseForm.ChangeTarget) (a : JSObject) :
  get "firstName" (values s) = VString fn0 ->
  get "lastName" (values s) = VString ln0 ->
  get "selectedAddress" (values s) = VString sel ->
  trim fn0 = [] \/ trim ln0 = [] ->
  UseForm.name e1 = lit "firstName" -> stored e1 = VString fn ->
  UseForm.name e2 = lit "lastName" -> stored e2 = VString ln ->
  trim fn <> [] -> trim ln <> [] -> sel <> [] ->
  a ∈ addresses s -> get "id" a = VString sel ->
  let s1 := after person s in
  let s2 := after (handleChange e2) (after (handleChange e1) s1) in
  error s1 = Some MSG_MANDATORY_NAMES
  /\ (exists entry, fire person s2 = added addAddress entry s2)
  /\ error (after person s2) = Some MSG_MANDATORY_NAMES.
Proof.
  intros Hfn0 Hln0 Hsel Hblank N1 S1 N2 S2 Tf Tl Hs Ha Hid s1 s2.
  assert (F1 : fire person s = failed_with MSG_MANDATORY_NAMES s)
    by now apply (person_blank _ _ fn0 ln0).
  assert (E1 : error s1 = Some MSG_MANDATORY_NAMES)
    by (unfold s1, after; now rewrite F1).
  assert (V1 : values s1 = values s)
    by (unfold s1, after; now rewrite F1).
  assert (A1 : addresses s1 = addresses s)
    by (unfold s1, after; now rewrite F1).
  assert (Gfn : get "firstName" (values s2) = VString fn).
  { unfold s2. rewrite get_after_change, N2.
    rewrite bool_decide_eq_false_2 by discriminate.
    rewrite get_after_change, N1.
    now rewrite bool_decide_eq_true_2. }
  assert (Gln : get "lastName" (values s2) = VString ln).
  { unfold s2. rewrite get_after_change, N2.
    now rewrite bool_decide_eq_true_2. }
  assert (Gsel : get "selectedAddress" (values s2) = VString sel).
  { unfold s2. rewrite get_after_change, N2.
    rewrite bool_decide_eq_false_2 by discriminate.
    rewrite get_after_change, N1.
    rewrite bool_decide_eq_false_2 by discriminate.
    now rewrite V1. }
  assert (A2 : addresses s2 = addresses s) by exact A1.
  assert (E2 : error s2 = Some MSG_MANDATORY_NAMES) by exact E1.
  destruct (Array_find (fun address => strict_eq (get "id" address)
                          (get "selectedAddress" (values s2)))
                       (addresses s2)) as [found|] eqn:Hfind.
  - assert (Hsome : truthy (get "selectedAddress" (values s2)) = true).
    { rewrite Gsel. simpl. now apply negb_true_iff, is_empty_false. }
    pose proof (person_added addAddress s2 fn ln found Gfn Gln Tf Tl
                  Hsome Hfind) as Hfire.
    simpl in Hfire. split; [exact E1|]. split.
    + eexists. exact Hfire.
    + unfold after. rewrite Hfire. exact E2.
  - exfalso. rewrite A2 in Hfind.
    eapply Array_find_None in Hfind; [|exact Ha].
    apply strict_eq_false in Hfind. rewrite Gsel in Hfind. auto.
Qed.

End PersonMore.

(** ** The page as a whole *)

Lemma messages_not_empty (m : jsstring) :
  In m messages -> is_empty m = false.
Proof.
  simpl. intros H.
  repeat (destruct H as [<- | H]; [reflexivity|]). destruct H.
Qed.

Lemma text_form_get (s : AppState) (k : string) :
  text_form s -> In k form_fields ->
  exists v : jsstring, get k (values s) = VString v.
Proof.
  unfold text_form. rewrite Forall_forall. intros H Hk.
  apply H. now apply list_elem_of_In.
Qed.

Section Page.

Variable NEXT_PUBLIC_URL : jsstring.
Variable encodeURIComponent : JSVal -> Completion jsstring.
Variable RawAddressModel : Type.
Variable fetch : jsstring -> FetchOutcome RawAddressModel.
Variable transformAddress :
  RawAddressModel -> nat -> list RawAddressModel -> JSObject.
Variable addAddress : list JSObject -> JSObject -> list JSObject.
Variable styles_error : jsstring.

Local Abbreviation search :=
  (handleAddressSubmit NEXT_PUBLIC_URL encodeURIComponent fetch
     transformAddress).
Local Abbreviation person := (handlePersonSubmit addAddress).
Local Abbreviation handle :=
  (handler NEXT_PUBLIC_URL encodeURIComponent fetch transformAddress
     addAddress).
Local Abbreviation step :=
  (dispatch NEXT_PUBLIC_URL encodeURIComponent fetch transformAddress
     addAddress).
Local Abbreviation play :=
  (replay NEXT_PUBLIC_URL encodeURIComponent fetch transformAddress
     addAddress).

Lemma play_snoc (evs : list Event) (ev : Event) (s : AppState) :
  play (evs ++ [ev]) s = step (play evs s) ev.
Proof. unfold replay. now rewrite fold_left_app. Qed.

(** An event leaves the error as it was, clears it, or sets it to one of
    the five messages. *)
Lemma step_error (s : AppState) (ev : Event) :
  error (step s ev) = error s
  \/ error (step s ev) = None
  \/ (exists m, In m messages /\ error (step s ev) = Some m).
Proof.
  destruct ev as [e| | |].
  - left. reflexivity.
  - unfold dispatch, handler. open_handler.
    repeat branch;
      first [ right; left; reflexivity
            | right; right; eexists; split; [|reflexivity]; simpl; tauto ].
  - unfold dispatch, handler. open_handler.
    repeat branch; try (left; reflexivity);
      try (right; right; eexists; split; [|reflexivity]; simpl; tauto).
    all: destruct (negb (truthy _) || _); simpl;
      try (right; right; eexists; split; [|reflexivity]; simpl; tauto).
    all: destruct (Array_find _ _); simpl;
      first [ left; reflexivity
            | right; right; eexists; split; [|reflexivity]; simpl; tauto ].
  - right. left. reflexivity.
Qed.

Lemma play_error (evs : list Event) :
  error (play evs initialState) = None
  \/ (exists m, In m messages /\ error (play evs initialState) = Some m).
Proof.
  induction evs as [|ev evs IH] using rev_ind; [now left|].
  rewrite play_snoc.
  destruct (step_error (play evs initialState) ev) as [-> | [-> | H]];
    [exact IH | now left | now right].
Qed.

(** X11. Whatever the user has done since the page was loaded, the banner
    is on screen exactly when the state holds an error, and it shows that
    error: the handlers only ever set non-empty messages, so the banner's
    own guard against an empty message never applies. *)
Theorem banner_shows_error (evs : list Event) :
  errorMessage (render styles_error (play evs initialState))
  = (fun m => {| role := lit "alert"; className := styles_error;
                 children := m |})
    <$> error (play evs initialState).
Proof.
  unfold render. simpl.
  destruct (play_error evs) as [-> | (m & Hm & ->)]; [reflexivity|].
  unfold ErrorMessage. now rewrite (messages_not_empty m Hm).
Qed.

(** After "Clear all fields" the page is as it was when loaded, but
    for the address book: empty inputs, no radio, no person form, no
    banner. *)
Lemma screen_after_clear (s : AppState) :
  render styles_error (after handleClearAll s)
  = {| postCode_value := VString []; houseNumber_value := VString [];
       radios := []; personForm := None; errorMessage := None |}
  /\ render styles_error (after handleClearAll s)
     = render styles_error initialState.
Proof. split; reflexivity. Qed.

(** X12. While the person form is on screen and both names are given, a
    submission ends with "No address selected, ..." exactly when the
    result list is empty: the missing-selection half of that check cannot
    be what fails, because the form is only rendered with a selection. *)
Theorem no_address_means_no_results (s : AppState) (fn ln : jsstring) :
  personForm (render styles_error s) <> None ->
  get "firstName" (values s) = VString fn ->
  get "lastName" (values s) = VString ln ->
  trim fn <> [] -> trim ln <> [] ->
  (fire person s = failed_with MSG_NO_ADDRESS s <-> addresses s = []).
Proof.
  intros Hform Hfn Hln Tf Tl.
  assert (Hsel : truthy (get "selectedAddress" (values s)) = true).
  { unfold render in Hform. simpl in Hform.
    destruct (truthy (get "selectedAddress" (values s))); congruence. }
  split.
  - intros Hfire. destruct (addresses s) as [|a0 l] eqn:Ea; [reflexivity|].
    exfalso. revert Hfire.
    unfold fire, handlePersonSubmit, failed_with. rewrite Hfn, Hln.
    apply is_empty_false in Tf, Tl.
    cbv [or_else blank js_trim bind ret]. rewrite Tf, Tl, Hsel, Ea.
    cbv [setError update emit dispatch_addAddress]. simpl.
    destruct (strict_eq _ _); [discriminate|].
    destruct (Array_find _ l); discriminate.
  - intros Hnil. apply (person_no_address _ _ fn ln); auto.
Qed.

Lemma text_form_step (s : AppState) (ev : Event) :
  text_event ev -> text_form s -> text_form (step s ev).
Proof.
  destruct ev as [e| | |]; simpl; intros Hev Hs.
  - now apply text_form_change.
  - now apply text_form_search.
  - now apply text_form_person.
  - apply text_form_clear.
Qed.

Lemma text_form_play (evs : list Event) :
  Forall text_event evs -> text_form (play evs initialState).
Proof.
  induction evs as [|ev evs IH] using rev_ind; intros Hevs.
  - apply text_form_initial.
  - apply Forall_app in Hevs as [Hevs Hev]. rewrite play_snoc.
    apply text_form_step; [|now apply IH].
    now apply Forall_cons in Hev as [Hev _].
Qed.

Lemma text_form_no_throw (s : AppState) (ev : Event) :
  text_form s -> completion (handle ev) s = Normal tt.
Proof.
  intros Hs.
  destruct (text_form_get s "postCode" Hs ltac:(simpl; tauto)) as [pc Hpc].
  destruct (text_form_get s "houseNumber" Hs ltac:(simpl; tauto))
    as [hn Hhn].
  destruct (text_form_get s "firstName" Hs ltac:(simpl; tauto)) as [fn Hfn].
  destruct (text_form_get s "lastName" Hs ltac:(simpl; tauto)) as [ln Hln].
  destruct ev as [e| | |]; [reflexivity| | |reflexivity].
  - unfold completion, fire, handler, handleAddressSubmit.
    rewrite Hpc, Hhn. open_handler. repeat branch; reflexivity.
  - unfold completion, fire, handler, handlePersonSubmit.
    rewrite Hfn, Hln. open_handler. repeat branch; try reflexivity.
    all: destruct (negb (truthy _) || _); simpl; try reflexivity.
    all: destruct (Array_find _ _); reflexivity.
Qed.

(** X13. As long as no control of the page is a checkbox, no handler ever
    throws, whatever the user does and whatever the network answers: the
    five fields always hold strings, and every failure of a search is
    caught and turned into a message. *)
Theorem handlers_never_throw (evs : list Event) (ev : Event) :
  Forall text_event evs ->
  text_form (play evs initialState)
  /\ completion (handle ev) (play evs initialState) = Normal tt.
Proof.
  intros Hevs. pose proof (text_form_play evs Hevs) as Hs.
  split; [exact Hs|]. now apply text_form_no_throw.
Qed.

(** X14. The address book changes on one event only, a person submission,
    and then by one dispatch of a listed address with the two names of
    the form set; typing, searching and clearing leave it alone. *)
Theorem book_changes_on_submit_only (s : AppState) (ev : Event) :
  addressBook (step s ev) = addressBook s
  \/ (ev = AddToBook
      /\ exists found : JSObject,
           found ∈ addresses s
           /\ addressBook (step s ev)
              = addAddress (addressBook s)
                  (entry_of found (get "firstName" (values s))
                                  (get "lastName" (values s)))).
Proof.
  destruct ev as [e| | |].
  - left. reflexivity.
  - left. apply search_frame.
  - unfold dispatch, handler, after, fire, handlePersonSubmit.
    cbv [or_else blank js_trim bind ret throw setError update emit
         dispatch_addAddress].
    repeat branch; try (left; reflexivity).
    all: destruct (negb (truthy _) || _); simpl; try (left; reflexivity).
    all: destruct (Array_find _ _) as [found|] eqn:Hfind; simpl;
      try (left; reflexivity).
    all: right; split; [reflexivity|]; exists found; split; [|reflexivity].
    all: apply Array_find_Some in Hfind as (pre & post & -> & _ & _).
    all: apply elem_of_app; right; left.
  - left. reflexivity.
Qed.

End Page.

(** ** The further properties at work *)

(** The search of the scenario sends its one request to the URL of the
    scenario. *)
Lemma search_requests_once_witness :
  submitted Builtins.encodeURIComponent Scenario.filled
    (lit "1345") (lit "350") (lit "1345") (lit "350")
  /\ network_calls (calls Scenario.search Scenario.filled)
     = [Scenario.url_of "350"].
Proof.
  assert (H : submitted Builtins.encodeURIComponent Scenario.filled
                (lit "1345") (lit "350") (lit "1345") (lit "350"))
    by (repeat split; evaluate).
  split; [exact H|].
  exact (proj2 (search_requests_once Scenario.base_url
                  Builtins.encodeURIComponent _ Scenario.mock_fetch
                  (as_map_callback Spec.transformAddress) Scenario.filled)
           (lit "1345") (lit "350") (lit "1345") (lit "350") H).
Defined.

(** A postcode that is one lead surrogate cannot be encoded. *)
Lemma unencodable_field_reported_witness :
  Builtins.encodeURIComponent (VString [55357]) = Throw URIError
  /\ error (after Scenario.search Scenario.surrogate_postcode)
     = Some MSG_FETCH_FAILED
  /\ network_calls (calls Scenario.search Scenario.surrogate_postcode) = []
  /\ diagnostics (calls Scenario.search Scenario.surrogate_postcode)
     = [URIError].
Proof.
  assert (E : Builtins.encodeURIComponent (VString [55357]) = Throw URIError)
    by evaluate.
  pose proof (unencodable_field_reported Scenario.base_url
                Builtins.encodeURIComponent _ Scenario.mock_fetch
                (as_map_callback Spec.transformAddress)
                Scenario.surrogate_postcode
                [55357] (lit "350") URIError
                ltac:(evaluate) ltac:(evaluate) ltac:(evaluate)
                ltac:(evaluate) (or_introl E)) as H.
  split; [exact E|].
  unfold after, calls. unfold Scenario.search. rewrite H.
  repeat split.
Defined.

(** An API that answers every request with [{"status":"ok"}]. *)
Lemma ill_shaped_body_reported_witness :
  error (after Scenario.bare_search Scenario.filled) = Some MSG_FETCH_FAILED
  /\ addresses (after Scenario.bare_search Scenario.filled) = []
  /\ diagnostics (calls Scenario.bare_search Scenario.filled) = [TypeError].
Proof.
  pose proof (ill_shaped_body_reported Scenario.base_url
                Builtins.encodeURIComponent _ Scenario.bare_api
                (as_map_callback Spec.transformAddress) Scenario.filled
                (lit "1345") (lit "350") (lit "1345") (lit "350")
                {| status := 200; json := JsonResolved IllShaped |}
                ltac:(repeat split; evaluate) eq_refl
                ltac:(split; apply N.leb_le; reflexivity) eq_refl) as H.
  unfold after, calls, Scenario.bare_search. rewrite H. repeat split.
Defined.

(** A checkbox bound to the postcode field stores a boolean. *)
Lemma non_text_field_throws_witness :
  get "postCode" (values Scenario.checkbox_postcode) = VBool true
  /\ addresses Scenario.checkbox_postcode <> []
  /\ completion Scenario.search Scenario.checkbox_postcode = Throw TypeError
  /\ addresses (after Scenario.search Scenario.checkbox_postcode) = []
  /\ error (after Scenario.search Scenario.checkbox_postcode) = None.
Proof.
  assert (G : get "postCode" (values Scenario.checkbox_postcode) = VBool true)
    by evaluate.
  pose proof (non_text_field_throws Scenario.base_url
                Builtins.encodeURIComponent _ Scenario.mock_fetch
                (as_map_callback Spec.transformAddress)
                Scenario.checkbox_postcode
                ltac:(intros str; rewrite G; discriminate)) as H.
  split; [exact G|]. split; [evaluate|].
  unfold after, calls, completion, Scenario.search. rewrite H.
  repeat split.
Defined.

(** Of two results with the identifier "1" the entry is made from the
    first: it has the first one's house number. *)
Lemma person_picks_first_match_witness :
  List.map (get "houseNumber")
    (addressBook (after Scenario.person Scenario.twins))
  = [VNumber 0].
Proof.
  pose proof (person_picks_first_match Spec.addAddress Scenario.twins
                (lit "A") (lit "B") (lit "1") []
                [Spec.transformAddress Scenario.record1 (VNumber 1)]
                (Spec.transformAddress Scenario.record1 (VNumber 0))
                ltac:(evaluate) ltac:(evaluate) ltac:(evaluate)
                ltac:(evaluate) ltac:(evaluate) ltac:(evaluate)
                eq_refl
                ltac:(intros y Hy; destruct (not_elem_of_nil _ Hy))
                ltac:(evaluate)) as H.
  unfold after, Scenario.person. rewrite H. evaluate.
Defined.

(** The submission of the scenario, made twice. *)
Lemma person_twice_witness :
  length (addressBook
            (after Scenario.person (after Scenario.person Scenario.ready)))
  = 2%nat.
Proof.
  pose proof (person_twice Spec.addAddress Scenario.ready
                (lit "A") (lit "B") (lit "1") [] []
                (Spec.transformAddress Scenario.record1 (VNumber 0))
                ltac:(evaluate) ltac:(evaluate) ltac:(evaluate)
                ltac:(evaluate) ltac:(evaluate) ltac:(evaluate)
                ltac:(evaluate)
                ltac:(intros y Hy; destruct (not_elem_of_nil _ Hy))
                ltac:(evaluate)) as [_ H].
  unfold Scenario.person. rewrite H. reflexivity.
Defined.

(** The names typed after a rejected submission: the entry is added and
    the message of the rejection stays. *)
Lemma stale_error_after_success_witness :
  error (after Scenario.person
           (after (handleChange (Scenario.typing "lastName" "B"))
              (after (handleChange (Scenario.typing "firstName" "A"))
                 (after Scenario.person Scenario.unnamed))))
  = Some MSG_MANDATORY_NAMES.
Proof.
  exact (proj2 (proj2
    (stale_error_after_success Spec.addAddress Scenario.unnamed
       [] [] (lit "A") (lit "B") (lit "1")
       (Scenario.typing "firstName" "A") (Scenario.typing "lastName" "B")
       (Spec.transformAddress Scenario.record1 (VNumber 0))
       ltac:(evaluate) ltac:(evaluate) ltac:(evaluate)
       (or_introl eq_refl)
       eq_refl ltac:(evaluate) eq_refl ltac:(evaluate)
       ltac:(evaluate) ltac:(evaluate) ltac:(evaluate)
       ltac:(replace (addresses Scenario.unnamed)
               with [Spec.transformAddress Scenario.record1 (VNumber 0)]
               by evaluate; apply list_elem_of_here)
       ltac:(evaluate)))).
Defined.

(** With the form on screen and the result list emptied by a search, the
    submission reports that no address is selected. *)
Lemma no_address_means_no_results_witness :
  personForm (render [] Scenario.emptied) <> None
  /\ addresses Scenario.emptied = []
  /\ fire Scenario.person Scenario.emptied
     = failed_with MSG_NO_ADDRESS Scenario.emptied.
Proof.
  assert (Hform : personForm (render [] Scenario.emptied) <> None)
    by evaluate.
  assert (Hnil : addresses Scenario.emptied = []) by evaluate.
  split; [exact Hform|]. split; [exact Hnil|].
  exact (proj2 (no_address_means_no_results Spec.addAddress []
                  Scenario.emptied (lit "A") (lit "B") Hform
                  ltac:(evaluate) ltac:(evaluate)
                  ltac:(evaluate) ltac:(evaluate)) Hnil).
Defined.

(** Typing a postcode, searching and clearing: nothing throws on the
    way, nor does the search that follows. *)
Lemma handlers_never_throw_witness :
  completion Scenario.search
    (replay Scenario.base_url Builtins.encodeURIComponent
       Scenario.mock_fetch (as_map_callback Spec.transformAddress)
       Spec.addAddress
       [Typed (Scenario.typing "postCode" "1345"); Find; ClearAllFields]
       initialState)
  = Normal tt.
Proof.
  exact (proj2 (handlers_never_throw Scenario.base_url
                  Builtins.encodeURIComponent _ Scenario.mock_fetch
                  (as_map_callback Spec.transformAddress) Spec.addAddress
                  [Typed (Scenario.typing "postCode" "1345"); Find;
                   ClearAllFields]
                  Find
                  ltac:(repeat constructor; discriminate))).
Defined.

(** ** From the response to the radios, from a radio to the book *)

Section Selecting.

Variable NEXT_PUBLIC_URL : jsstring.
Variable encodeURIComponent : JSVal -> Completion jsstring.
Variable RawAddressModel : Type.
Variable fetch : jsstring -> FetchOutcome RawAddressModel.
Variable transformAddress :
  RawAddressModel -> nat -> list RawAddressModel -> JSObject.
Variable addAddress : list JSObject -> JSObject -> list JSObject.
Variable styles_error : jsstring.

Local Abbreviation search :=
  (handleAddressSubmit NEXT_PUBLIC_URL encodeURIComponent fetch
     transformAddress).
Local Abbreviation person := (handlePersonSubmit addAddress).

Lemma radios_of_addresses (s : AppState) (i : nat) :
  radios (render styles_error s) !! i
  = (fun address => {| radio_key := get "id" address;
                       radio_name := lit "selectedAddress";
                       radio_id := get "id" address;
                       radio_value := get "id" address;
                       radio_address := address |})
    <$> (addresses s !! i).
Proof.
  unfold render. simpl.
  destruct (addresses s) as [|a l]; [reflexivity|].
  change (0 <? length (a :: l))%nat with true. cbv iota.
  apply list_lookup_fmap.
Qed.

(** X15. After a successful search the page shows one radio per record of
    the response, in the order of the response; each belongs to the form
    field [selectedAddress], and its value, its id and its key are the
    identifier of the address made from that record. *)
Theorem radios_after_search (s : AppState) (pc hn e1 e2 : jsstring)
  (details : list RawAddressModel) :
  submitted encodeURIComponent s pc hn e1 e2 ->
  fetch_succeeds (fetch (getAddresses_url NEXT_PUBLIC_URL e1 e2)) details ->
  length (radios (render styles_error (after search s))) = length details
  /\ (forall i : nat,
        radios (render styles_error (after search s)) !! i
        = (fun raw =>
             let address := transformAddress raw i details in
             {| radio_key := get "id" address;
                radio_name := lit "selectedAddress";
                radio_id := get "id" address;
                radio_value := get "id" address;
                radio_address := address |})
          <$> (details !! i)).
Proof.
  intros Hs Hok.
  assert (Hi : forall i,
             radios (render styles_error (after search s)) !! i
             = (fun raw =>
                  let address := transformAddress raw i details in
                  {| radio_key := get "id" address;
                     radio_name := lit "selectedAddress";
                     radio_id := get "id" address;
                     radio_value := get "id" address;
                     radio_address := address |})
               <$> (details !! i)).
  { intros i. rewrite radios_of_addresses.
    destruct (search_result_shape NEXT_PUBLIC_URL encodeURIComponent _
                fetch transformAddress s pc hn e1 e2 details Hs Hok)
      as (_ & Hl & _).
    rewrite Hl. now destruct (details !! i). }
  split; [|exact Hi].
  apply Nat.le_antisymm.
  - destruct (radios (render styles_error (after search s))
                !! length details) eqn:E.
    + rewrite Hi in E. rewrite lookup_ge_None_2 in E by lia. discriminate.
    + now apply lookup_ge_None in E.
  - destruct (decide (length details
                      <= length (radios (render styles_error
                                           (after search s))))%nat)
      as [Hle|Hgt]; [exact Hle|].
    exfalso.
    pose proof (Hi (length (radios (render styles_error (after search s)))))
      as E.
    rewrite lookup_ge_None_2 in E by lia.
    destruct (lookup_lt_is_Some_2 details
                (length (radios (render styles_error (after search s))))
                ltac:(lia)) as [x Hx].
    rewrite Hx in E. discriminate.
Qed.

(** X16. Picking the radio of a listed address brings up the person form,
    and with both names given the submission that follows adds an entry
    made from a listed address with the identifier picked. *)
Theorem pick_then_submit (s : AppState) (e : UseForm.ChangeTarget)
  (fn ln id : jsstring) (a : JSObject) :
  UseForm.name e = lit "selectedAddress" ->
  stored e = VString id -> id <> [] ->
  a ∈ addresses s -> get "id" a = VString id ->
  get "firstName" (values s) = VString fn ->
  get "lastName" (values s) = VString ln ->
  trim fn <> [] -> trim ln <> [] ->
  let s' := after (handleChange e) s in
  personForm (render styles_error s')
  = Some {| firstName_value := VString fn; lastName_value := VString ln |}
  /\ exists found : JSObject,
       found ∈ addresses s /\ get "id" found = VString id
       /\ fire person s'
          = added addAddress (entry_of found (VString fn) (VString ln)) s'.
Proof.
  intros Hn Hst Hid Ha Haid Hfn Hln Tf Tl s'.
  assert (Gsel : get "selectedAddress" (values s') = VString id).
  { unfold s'. rewrite get_after_change, Hn.
    now rewrite bool_decide_eq_true_2. }
  assert (Gfn : get "firstName" (values s') = VString fn).
  { unfold s'. rewrite get_after_change, Hn.
    now rewrite bool_decide_eq_false_2 by discriminate. }
  assert (Gln : get "lastName" (values s') = VString ln).
  { unfold s'. rewrite get_after_change, Hn.
    now rewrite bool_decide_eq_false_2 by discriminate. }
  assert (Hsome : truthy (get "selectedAddress" (values s')) = true).
  { rewrite Gsel. simpl. now apply negb_true_iff, is_empty_false. }
  split.
  - cbv [render personForm]. now rewrite Hsome, Gfn, Gln.
  - destruct (Array_find (fun address => strict_eq (get "id" address)
                            (get "selectedAddress" (values s')))
                         (addresses s')) as [found|] eqn:Hfind.
    + pose proof Hfind as Hdec.
      apply Array_find_Some in Hdec as (pre & post & Hl & Hp & _).
      apply strict_eq_true in Hp. rewrite Gsel in Hp.
      exists found. split.
      { change (addresses s') with (addresses s) in Hl. rewrite Hl.
        apply elem_of_app. right. left. }
      split; [exact Hp|].
      exact (person_added addAddress s' fn ln found Gfn Gln Tf Tl
               Hsome Hfind).
    + exfalso. eapply Array_find_None in Hfind; [|exact Ha].
      apply strict_eq_false in Hfind. rewrite Gsel in Hfind. auto.
Qed.

End Selecting.

(** The radio of the scenario. *)
Lemma radios_after_search_witness :
  length (radios (render [] (after Scenario.search Scenario.filled))) = 1%nat
  /\ radio_value
       <$> (radios (render [] (after Scenario.search Scenario.filled))
              !! 0%nat)
     = Some (VString (lit "1")).
Proof.
  destruct (radios_after_search Scenario.base_url
              Builtins.encodeURIComponent _ Scenario.mock_fetch
              (as_map_callback Spec.transformAddress) []
              Scenario.filled (lit "1345") (lit "350") (lit "1345")
              (lit "350") [Scenario.record1]
              ltac:(repeat split; evaluate)
              ltac:(apply (success
                      {| status := 200;
                         json := JsonResolved
                                   (Body (lit "ok") [Scenario.record1]) |}
                      (lit "ok"));
                    [split; apply N.leb_le; reflexivity | reflexivity]))
    as [Hlen H0].
  split; [exact Hlen|].
  unfold Scenario.search. rewrite (H0 0%nat). evaluate.
Defined.

(** Picking the result of the scenario, with the names already typed. *)
Lemma pick_then_submit_witness :
  length (addressBook
            (after Scenario.person
               (after (handleChange
                         {| UseForm.name := lit "selectedAddress";
                            UseForm.type := lit "radio";
                            UseForm.value := lit "1";
                            UseForm.checked := true |})
                  Scenario.unselected)))
  = 1%nat.
Proof.
  destruct (pick_then_submit Spec.addAddress [] Scenario.unselected
              {| UseForm.name := lit "selectedAddress";
                 UseForm.type := lit "radio";
                 UseForm.value := lit "1";
                 UseForm.checked := true |}
              (lit "A") (lit "B") (lit "1")
              (Spec.transformAddress Scenario.record1 (VNumber 0))
              eq_refl ltac:(evaluate) ltac:(evaluate)
              ltac:(replace (addresses Scenario.unselected)
                      with [Spec.transformAddress Scenario.record1
                              (VNumber 0)]
                      by evaluate; apply list_elem_of_here)
              ltac:(evaluate) ltac:(evaluate) ltac:(evaluate)
              ltac:(evaluate) ltac:(evaluate))
    as (_ & found & _ & _ & H).
  unfold after at 1. unfold Scenario.person. rewrite H. reflexivity.
Defined.
